(** * Projet.py: critical path, change log and notification fan-out

    A shallow embedding of [src/Projet.py].  Python objects that are shared
    and compared by identity ([Tache]) live in a heap and are designated by
    references; the memo dictionary of [find_longest_path] is a finite map
    keyed by those references; methods that mutate [self] or print are
    computations in a state-and-exception monad. *)

From Stdlib Require Import ZArith Lia.
From Stdlib Require Import DecimalString.
From Stdlib Require Import Floats.SpecFloat.
From stdpp Require Import gmap strings list fin_maps.

(** ** Exceptions and the state-and-exception monad *)

(** The exceptions a run of the modelled code can end with.  [RecursionError]
    is what CPython raises when the call stack outgrows the recursion limit;
    [ValueError] is what the builtin [max] raises on an empty sequence;
    [UserException cls] stands for an exception of class [cls] raised by code
    plugged in from outside (a [NotificationStrategy] subclass).  [InvalidRef]
    is not a Python exception: the model's heap is a finite map, so a
    reference may designate no object, which no Python reference does; the
    statements about Python runs assume [heap_closed]. *)
Inductive exn : Type :=
  | RecursionError
  | ValueError
  | UserException (cls : string)
  | InvalidRef.

Inductive outcome (A : Type) : Type :=
  | Return (a : A)
  | Raise (e : exn).
Arguments Return {A} a.
Arguments Raise {A} e.

(** A computation over a mutable state [S]: the state reached is returned
    also when an exception is raised, as Python keeps the mutations done
    before a [raise]. *)
Definition M (S A : Type) : Type := S -> outcome A * S.

Definition ret {S A} (a : A) : M S A := fun s => (Return a, s).
Definition raise {S A} (e : exn) : M S A := fun s => (Raise e, s).
Definition bind {S A B} (c : M S A) (k : A -> M S B) : M S B :=
  fun s => match c s with
           | (Return a, s') => k a s'
           | (Raise e, s') => (Raise e, s')
           end.
Definition get {S} : M S S := fun s => (Return s, s).
Definition modify {S} (f : S -> S) : M S unit := fun s => (Return tt, f s).

Notation "'let!' x ':=' c 'in' k" := (bind c (fun x => k))
  (at level 10, x name, c at level 100, k at level 200, only parsing).

(** ** [datetime] and [timedelta]

    A naive [datetime] is a number of microseconds, counted from the start
    of the day of ordinal 0; the ordinal of a day is the proleptic Gregorian
    one that CPython's [datetime] module computes (0001-01-01 is day 1).
    Subtracting two of them gives a [timedelta], whose [days] attribute is
    the floor of the difference in days. *)
Module Datetime.

Definition US_PER_DAY : Z := 86400000000.

Definition is_leap (year : Z) : bool :=
  ((year mod 4 =? 0) && (negb (year mod 100 =? 0) || (year mod 400 =? 0)))%Z.

Definition days_before_year (year : Z) : Z :=
  (let y := year - 1 in y * 365 + y / 4 - y / 100 + y / 400)%Z.

(** Indexed by the month, from 1; the entry 0 is a placeholder. *)
Definition DAYS_BEFORE_MONTH : list Z :=
  [-1; 0; 31; 59; 90; 120; 151; 181; 212; 243; 273; 304; 334]%Z.

Definition days_before_month (year month : Z) : Z :=
  (nth (Z.to_nat month) DAYS_BEFORE_MONTH 0
   + if (month >? 2) && is_leap year then 1 else 0)%Z.

Definition ymd2ord (year month day : Z) : Z :=
  (days_before_year year + days_before_month year month + day)%Z.

Record datetime : Type := { usec : Z }.
Record timedelta : Type := { td_usec : Z }.

(** [datetime(year, month, day, hour, minute, second, microsecond)] *)
Definition make (year month day hour minute second microsecond : Z) : datetime :=
  {| usec := (ymd2ord year month day * US_PER_DAY
              + ((hour * 60 + minute) * 60 + second) * 1000000 + microsecond)%Z |}.

(** [datetime(year, month, day)] *)
Definition date (year month day : Z) : datetime := make year month day 0 0 0 0.

(** [a - b] *)
Definition sub (a b : datetime) : timedelta := {| td_usec := (usec a - usec b)%Z |}.

(** [td.days] *)
Definition days (td : timedelta) : Z := (td_usec td / US_PER_DAY)%Z.

End Datetime.

(** ** The classes of the data model *)

Module Membre.
Record t : Type := { nom : string; role : string }.
End Membre.

(** A reference to a [Tache] object: its identity.  [Tache] defines neither
    [__eq__] nor [__hash__], so [tache in memo] and [memo[tache]] go by
    identity. *)
Definition ref : Type := nat.

Module Tache.
Record t : Type := {
  nom : string;
  description : string;
  date_debut : Datetime.datetime;
  date_fin : Datetime.datetime;
  responsable : Membre.t;
  statut : string;
  dependances : list ref
}.

Definition ajouter_dependance (dep : ref) (self : t) : t :=
  {| nom := nom self; description := description self;
     date_debut := date_debut self; date_fin := date_fin self;
     responsable := responsable self; statut := statut self;
     dependances := dependances self ++ [dep] |}.

Definition mettre_a_jour_statut (st : string) (self : t) : t :=
  {| nom := nom self; description := description self;
     date_debut := date_debut self; date_fin := date_fin self;
     responsable := responsable self; statut := st;
     dependances := dependances self |}.

(** [(tache.date_fin - tache.date_debut).days] *)
Definition span (self : t) : Z :=
  Datetime.days (Datetime.sub (date_fin self) (date_debut self)).
End Tache.

Module Equipe.
Record t : Type := { membres : list Membre.t }.

Definition ajouter_membre (membre : Membre.t) (self : t) : t :=
  {| membres := membres self ++ [membre] |}.
End Equipe.

Module Jalon.
Record t : Type := { nom : string; date : Datetime.datetime }.
End Jalon.

Module Risque.
Record t : Type := { description : string; probabilite : spec_float; impact : string }.
End Risque.

Module Changement.
(** [date] is [datetime.now()] at construction: the clock is an input. *)
Record t : Type := { description : string; version : Z; date : Datetime.datetime }.
End Changement.

(** The heap of [Tache] objects. *)
Abbreviation heap := (gmap ref Tache.t).

Definition deref {S} (h : heap) (r : ref) : M S Tache.t :=
  match h !! r with
  | Some t => ret t
  | None => raise InvalidRef
  end.

(** Every reference held by an object of the heap designates an object of
    the heap. *)
Definition heap_closed (h : heap) : Prop :=
  forall r t d, h !! r = Some t -> d ∈ Tache.dependances t -> is_Some (h !! d).

(** ** [find_longest_path] *)

(** The memo dictionary: [Tache] identity to [(length, path)]. *)
Abbreviation Memo := (gmap ref (Z * list ref)).

(** The loop [for dep in tache.dependances] of [find_longest_path], with the
    pair [(max_length, max_path)] as its accumulator; [rec] is the recursive
    call. *)
Fixpoint for_dependances (rec : ref -> M Memo (Z * list ref))
    (deps : list ref) (acc : Z * list ref) : M Memo (Z * list ref) :=
  match deps with
  | [] => ret acc
  | dep :: deps' =>
      let! r := rec dep in
      for_dependances rec deps' (if (r.1 >? acc.1)%Z then r else acc)
  end.

(** [find_longest_path(tache, memo)], with [depth] stack frames left before
    CPython raises [RecursionError]. *)
Fixpoint find_longest_path (depth : nat) (h : heap) (tache : ref)
    : M Memo (Z * list ref) :=
  match depth with
  | O => raise RecursionError
  | S depth' =>
      let! memo := get in
      match memo !! tache with
      | Some r => ret r
      | None =>
          let! t := deref h tache in
          match Tache.dependances t with
          | [] =>
              let! _ := modify (<[tache := (0%Z, [tache])]>) in
              ret (0%Z, [tache])
          | deps =>
              let! m := for_dependances (find_longest_path depth' h) deps (0%Z, []) in
              let total_length := (m.1 + Tache.span t)%Z in
              let! _ := modify (<[tache := (total_length, m.2 ++ [tache])]>) in
              ret (total_length, m.2 ++ [tache])
          end
      end
  end.

(** The list comprehension
    [[find_longest_path(tache, memo) for tache in self.taches]]. *)
Fixpoint all_paths (depth : nat) (h : heap) (taches : list ref)
    : M Memo (list (Z * list ref)) :=
  match taches with
  | [] => ret []
  | tache :: taches' =>
      let! r := find_longest_path depth h tache in
      let! rs := all_paths depth h taches' in
      ret (r :: rs)
  end.

(** The builtin [max(iterable, key=lambda x: x[0])]: the first item whose key
    is maximal ([best] is replaced only by an item with a strictly greater
    key), [ValueError] on an empty sequence. *)
Fixpoint max_from {A} (best : Z * A) (l : list (Z * A)) : Z * A :=
  match l with
  | [] => best
  | x :: l' => max_from (if (x.1 >? best.1)%Z then x else best) l'
  end.

Definition py_max {S A} (l : list (Z * A)) : M S (Z * A) :=
  match l with
  | [] => raise ValueError
  | x :: l' => ret (max_from x l')
  end.

(** ** Notification strategies *)

(** [print(line)]: standard output is the list of the lines printed. *)
Definition print (line : string) : M (list string) unit :=
  modify (fun out => out ++ [line]).

(** The abstract class [NotificationStrategy]: one method, which a subclass
    is free to implement by printing, by raising, or both. *)
Module NotificationStrategy.
Record t : Type := {
  envoyer_message : string -> Membre.t -> M (list string) unit
}.
End NotificationStrategy.

Definition EmailNotificationStrategy : NotificationStrategy.t :=
  {| NotificationStrategy.envoyer_message message destinataire :=
       print ("Notification envoyée à " +:+ Membre.nom destinataire
              +:+ " par email: " +:+ message) |}.

Definition SMSNotificationStrategy : NotificationStrategy.t :=
  {| NotificationStrategy.envoyer_message message destinataire :=
       print ("Notification envoyée à " +:+ Membre.nom destinataire
              +:+ " par SMS: " +:+ message) |}.

Definition PushNotificationStrategy : NotificationStrategy.t :=
  {| NotificationStrategy.envoyer_message message destinataire :=
       print ("Notification envoyée à " +:+ Membre.nom destinataire
              +:+ " par Push: " +:+ message) |}.

Module NotificationContext.
Record t : Type := { strategy : NotificationStrategy.t }.

Definition set_notification_strategy (s : NotificationStrategy.t) (self : t) : t :=
  {| strategy := s |}.

(** [for destinataire in destinataires:
       self.strategy.envoyer_message(message, destinataire)] *)
Fixpoint notifier (self : t) (message : string) (destinataires : list Membre.t)
    : M (list string) unit :=
  match destinataires with
  | [] => ret tt
  | destinataire :: rest =>
      let! _ := NotificationStrategy.envoyer_message (strategy self)
                  message destinataire in
      notifier self message rest
  end.
End NotificationContext.

(** ** [Projet] *)

(** [str(n)] of a Python [int], as an f-string formats it. *)
Definition str_int (n : Z) : string := NilZero.string_of_int (Z.to_int n).

Module Projet.

Record t : Type := {
  nom : string;
  description : string;
  date_debut : Datetime.datetime;
  date_fin : Datetime.datetime;
  budget : spec_float;
  taches : list ref;
  equipe : Equipe.t;
  risques : list Risque.t;
  jalons : list Jalon.t;
  version : Z;
  changements : list Changement.t;
  chemin_critique : list ref;
  notification_context : option NotificationContext.t
}.

(** [Projet(nom, description, date_debut, date_fin, budget)] *)
Definition init (nom description : string) (date_debut date_fin : Datetime.datetime)
    (budget : spec_float) : t :=
  {| nom := nom; description := description;
     date_debut := date_debut; date_fin := date_fin; budget := budget;
     taches := []; equipe := {| Equipe.membres := [] |};
     risques := []; jalons := []; version := 1; changements := [];
     chemin_critique := []; notification_context := None |}.

Definition set_budget (v : spec_float) (p : t) : t :=
  {| nom := nom p; description := description p; date_debut := date_debut p;
     date_fin := date_fin p; budget := v; taches := taches p;
     equipe := equipe p; risques := risques p; jalons := jalons p;
     version := version p; changements := changements p;
     chemin_critique := chemin_critique p;
     notification_context := notification_context p |}.

Definition set_taches (v : list ref) (p : t) : t :=
  {| nom := nom p; description := description p; date_debut := date_debut p;
     date_fin := date_fin p; budget := budget p; taches := v;
     equipe := equipe p; risques := risques p; jalons := jalons p;
     version := version p; changements := changements p;
     chemin_critique := chemin_critique p;
     notification_context := notification_context p |}.

Definition set_equipe (v : Equipe.t) (p : t) : t :=
  {| nom := nom p; description := description p; date_debut := date_debut p;
     date_fin := date_fin p; budget := budget p; taches := taches p;
     equipe := v; risques := risques p; jalons := jalons p;
     version := version p; changements := changements p;
     chemin_critique := chemin_critique p;
     notification_context := notification_context p |}.

Definition set_risques (v : list Risque.t) (p : t) : t :=
  {| nom := nom p; description := description p; date_debut := date_debut p;
     date_fin := date_fin p; budget := budget p; taches := taches p;
     equipe := equipe p; risques := v; jalons := jalons p;
     version := version p; changements := changements p;
     chemin_critique := chemin_critique p;
     notification_context := notification_context p |}.

Definition set_jalons (v : list Jalon.t) (p : t) : t :=
  {| nom := nom p; description := description p; date_debut := date_debut p;
     date_fin := date_fin p; budget := budget p; taches := taches p;
     equipe := equipe p; risques := risques p; jalons := v;
     version := version p; changements := changements p;
     chemin_critique := chemin_critique p;
     notification_context := notification_context p |}.

Definition set_version (v : Z) (p : t) : t :=
  {| nom := nom p; description := description p; date_debut := date_debut p;
     date_fin := date_fin p; budget := budget p; taches := taches p;
     equipe := equipe p; risques := risques p; jalons := jalons p;
     version := v; changements := changements p;
     chemin_critique := chemin_critique p;
     notification_context := notification_context p |}.

Definition set_changements (v : list Changement.t) (p : t) : t :=
  {| nom := nom p; description := description p; date_debut := date_debut p;
     date_fin := date_fin p; budget := budget p; taches := taches p;
     equipe := equipe p; risques := risques p; jalons := jalons p;
     version := version p; changements := v;
     chemin_critique := chemin_critique p;
     notification_context := notification_context p |}.

Definition set_chemin_critique (v : list ref) (p : t) : t :=
  {| nom := nom p; description := description p; date_debut := date_debut p;
     date_fin := date_fin p; budget := budget p; taches := taches p;
     equipe := equipe p; risques := risques p; jalons := jalons p;
     version := version p; changements := changements p;
     chemin_critique := v;
     notification_context := notification_context p |}.

Definition set_notification_context (v : option NotificationContext.t) (p : t) : t :=
  {| nom := nom p; description := description p; date_debut := date_debut p;
     date_fin := date_fin p; budget := budget p; taches := taches p;
     equipe := equipe p; risques := risques p; jalons := jalons p;
     version := version p; changements := changements p;
     chemin_critique := chemin_critique p;
     notification_context := v |}.

End Projet.

(** The state a method of [Projet] runs in: the heap of [Tache] objects, the
    fields of the project, and what has been printed. *)
Record State : Type := {
  objs : heap;
  projet : Projet.t;
  stdout : list string
}.

Definition set_objs (h : heap) (s : State) : State :=
  {| objs := h; projet := projet s; stdout := stdout s |}.
Definition set_projet (p : Projet.t) (s : State) : State :=
  {| objs := objs s; projet := p; stdout := stdout s |}.
Definition set_stdout (out : list string) (s : State) : State :=
  {| objs := objs s; projet := projet s; stdout := out |}.

(** [self.field = v] *)
Definition assign (f : Projet.t -> Projet.t) : M State unit :=
  modify (fun s => set_projet (f (projet s)) s).

(** A computation that only prints, run in the full state. *)
Definition on_stdout {A} (c : M (list string) A) : M State A :=
  fun s => let '(o, out) := c (stdout s) in (o, set_stdout out s).

(** A computation over a local dictionary [memo = {}], which is dropped when
    the computation ends. *)
Definition with_memo {A} (c : M Memo A) : M State A :=
  fun s => ((c ∅).1, s).

(** ** The methods of [Projet] and [Tache] *)

Section Methods.

(** How an f-string formats a [float] (the budget); the methods do not
    depend on it beyond passing the text on. *)
Variable str_float : spec_float -> string.

(** [Projet.notifier]: nothing when no strategy has been set. *)
Definition notifier (message : string) : M State unit :=
  let! s := get in
  match Projet.notification_context (projet s) with
  | Some ctx =>
      on_stdout (NotificationContext.notifier ctx message
                   (Equipe.membres (Projet.equipe (projet s))))
  | None => ret tt
  end.

Definition ajouter_membre (membre : Membre.t) : M State unit :=
  let! _ := assign (fun p =>
    Projet.set_equipe (Equipe.ajouter_membre membre (Projet.equipe p)) p) in
  notifier (Membre.nom membre +:+ " a été ajouté à l'équipe").

Definition set_notification_strategy (strategy : NotificationStrategy.t)
    : M State unit :=
  assign (Projet.set_notification_context
            (Some {| NotificationContext.strategy := strategy |})).

Definition ajouter_tache (tache : ref) : M State unit :=
  let! _ := assign (fun p => Projet.set_taches (Projet.taches p ++ [tache]) p) in
  let! s := get in
  let! t := deref (objs s) tache in
  notifier ("Nouvelle tâche ajoutée: " +:+ Tache.nom t).

Definition ajouter_membre_equipe (membre : Membre.t) : M State unit :=
  let! _ := assign (fun p =>
    Projet.set_equipe (Equipe.ajouter_membre membre (Projet.equipe p)) p) in
  notifier (Membre.nom membre +:+ " a été ajouté à l'équipe").

Definition definir_budget (budget : spec_float) : M State unit :=
  let! _ := assign (Projet.set_budget budget) in
  let! s := get in
  notifier ("Le budget du projet a été défini à "
            +:+ str_float (Projet.budget (projet s)) +:+ " Unité Monétaire").

Definition ajouter_risque (risque : Risque.t) : M State unit :=
  let! _ := assign (fun p => Projet.set_risques (Projet.risques p ++ [risque]) p) in
  notifier ("Nouveau risque ajouté: " +:+ Risque.description risque).

Definition ajouter_jalon (jalon : Jalon.t) : M State unit :=
  let! _ := assign (fun p => Projet.set_jalons (Projet.jalons p ++ [jalon]) p) in
  notifier ("Nouveau jalon ajouté: " +:+ Jalon.nom jalon).

(** [now] is what [datetime.now()] returns inside [Changement.__init__]. *)
Definition enregistrer_changement (description : string) (now : Datetime.datetime)
    : M State unit :=
  let! s := get in
  let changement :=
    {| Changement.description := description;
       Changement.version := Projet.version (projet s);
       Changement.date := now |} in
  let! _ := assign (fun p =>
    Projet.set_changements (Projet.changements p ++ [changement]) p) in
  let! _ := assign (fun p => Projet.set_version (Projet.version p + 1)%Z p) in
  let! s' := get in
  notifier ("Changement enregistré: " +:+ description +:+ " (version "
            +:+ str_int (Projet.version (projet s')) +:+ ")").

(** [depth] is the number of stack frames [find_longest_path] may use. *)
Definition calculer_chemin_critique (depth : nat) : M State unit :=
  let! s := get in
  let! paths := with_memo (all_paths depth (objs s) (Projet.taches (projet s))) in
  let! best := py_max paths in
  assign (Projet.set_chemin_critique best.2).

(** [Tache(...)]: a new object, at a reference no object has yet. *)
Definition new_Tache (t : Tache.t) : M State ref :=
  let! s := get in
  let r := fresh (dom (objs s)) in
  let! _ := modify (set_objs (<[r := t]> (objs s))) in
  ret r.

(** [tache.ajouter_dependance(dep)] and [tache.mettre_a_jour_statut(st)]
    on the object that [tache] designates.  Every task has a list of
    dependencies of its own here; in Python [Tache.__init__] keeps the list
    object it is given, so two tasks built from one list share it and an
    append through one of them shows in the other: such sharing is not
    modelled. *)
Definition tache_ajouter_dependance (tache dep : ref) : M State unit :=
  let! s := get in
  let! t := deref (objs s) tache in
  modify (set_objs (<[tache := Tache.ajouter_dependance dep t]> (objs s))).

Definition tache_mettre_a_jour_statut (tache : ref) (st : string) : M State unit :=
  let! s := get in
  let! t := deref (objs s) tache in
  modify (set_objs (<[tache := Tache.mettre_a_jour_statut st t]> (objs s))).

(** A call a client of the classes can make. *)
Inductive call : Type :=
  | AjouterMembre (membre : Membre.t)
  | SetNotificationStrategy (strategy : NotificationStrategy.t)
  | AjouterTache (tache : ref)
  | AjouterMembreEquipe (membre : Membre.t)
  | DefinirBudget (budget : spec_float)
  | AjouterRisque (risque : Risque.t)
  | AjouterJalon (jalon : Jalon.t)
  | EnregistrerChangement (description : string) (now : Datetime.datetime)
  | CalculerCheminCritique (depth : nat)
  | NewTache (t : Tache.t)
  | TacheAjouterDependance (tache dep : ref)
  | TacheMettreAJourStatut (tache : ref) (st : string).

Definition do_call (c : call) : M State unit :=
  match c with
  | AjouterMembre m => ajouter_membre m
  | SetNotificationStrategy st => set_notification_strategy st
  | AjouterTache r => ajouter_tache r
  | AjouterMembreEquipe m => ajouter_membre_equipe m
  | DefinirBudget b => definir_budget b
  | AjouterRisque r => ajouter_risque r
  | AjouterJalon j => ajouter_jalon j
  | EnregistrerChangement d now => enregistrer_changement d now
  | CalculerCheminCritique depth => calculer_chemin_critique depth
  | NewTache t => let! _ := new_Tache t in ret tt
  | TacheAjouterDependance r d => tache_ajouter_dependance r d
  | TacheMettreAJourStatut r st => tache_mettre_a_jour_statut r st
  end.

(** The state after a client made the calls of [cs] in turn, going on
    after a call that raised (the state is then as the call left it). *)
Definition run_calls (cs : list call) (s : State) : State :=
  foldl (fun s c => (do_call c s).2) s cs.

End Methods.

(** ** The reports *)

(** The newline of the f-strings. *)
Definition NL : string := String (Ascii.ascii_of_nat 10) "".

Section Rapport.

(** How an f-string formats a [float] (the budget, a probability) and a
    [datetime]; the reports only pass the text on. *)
Variable str_float : spec_float -> string.
Variable str_datetime : Datetime.datetime -> string.

Definition generer_rapport_performance : M State string :=
  let! s := get in
  ret ("Performance Report for Project '" +:+ Projet.nom (projet s) +:+ "':" +:+ NL).

(** The lines that the loops of [generer_rapport] add to the report. *)
Definition ligne_membre (membre : Membre.t) : string :=
  "- " +:+ Membre.nom membre +:+ " (" +:+ Membre.role membre +:+ ")" +:+ NL.

Definition ligne_tache (tache : Tache.t) : string :=
  "- " +:+ Tache.nom tache +:+ " (" +:+ str_datetime (Tache.date_debut tache)
  +:+ " à " +:+ str_datetime (Tache.date_fin tache) +:+ "), Responsable: "
  +:+ Membre.nom (Tache.responsable tache) +:+ ", Statut: "
  +:+ Tache.statut tache +:+ NL.

Definition ligne_jalon (jalon : Jalon.t) : string :=
  "- " +:+ Jalon.nom jalon +:+ " (" +:+ str_datetime (Jalon.date jalon) +:+ ")" +:+ NL.

Definition ligne_risque (risque : Risque.t) : string :=
  "- " +:+ Risque.description risque +:+ " (Probabilité: "
  +:+ str_float (Risque.probabilite risque) +:+ ", Impact: "
  +:+ Risque.impact risque +:+ ")" +:+ NL.

Definition ligne_chemin (tache : Tache.t) : string :=
  "- " +:+ Tache.nom tache +:+ " (" +:+ str_datetime (Tache.date_debut tache)
  +:+ " à " +:+ str_datetime (Tache.date_fin tache) +:+ ")" +:+ NL.

(** [for x in xs: rapport += ligne(x)] over a list of values. *)
Definition ajouter_lignes {A} (ligne : A -> string) (xs : list A) (rapport : string)
    : string :=
  foldl (fun rapport x => rapport +:+ ligne x) rapport xs.

(** [for tache in taches: rapport += ligne(tache)] over a list of [Tache]
    objects. *)
Fixpoint ajouter_lignes_taches (ligne : Tache.t -> string) (taches : list ref)
    (rapport : string) : M State string :=
  match taches with
  | [] => ret rapport
  | tache :: rest =>
      let! s := get in
      let! t := deref (objs s) tache in
      ajouter_lignes_taches ligne rest (rapport +:+ ligne t)
  end.

Definition generer_rapport : M State string :=
  let! s := get in
  let p := projet s in
  let rapport := "Rapport d'activités du Projet '" +:+ Projet.nom p +:+ "':" +:+ NL in
  let rapport := rapport +:+ ("Version: " +:+ str_int (Projet.version p) +:+ NL) in
  let rapport := rapport +:+ ("Dates: " +:+ str_datetime (Projet.date_debut p)
                              +:+ " à " +:+ str_datetime (Projet.date_fin p) +:+ NL) in
  let rapport := rapport +:+ ("Budget: " +:+ str_float (Projet.budget p)
                              +:+ " Unité Monétaire" +:+ NL) in
  let rapport := rapport +:+ ("Équipe:" +:+ NL) in
  let rapport := ajouter_lignes ligne_membre (Equipe.membres (Projet.equipe p)) rapport in
  let rapport := rapport +:+ ("Tâches:" +:+ NL) in
  let! rapport := ajouter_lignes_taches ligne_tache (Projet.taches p) rapport in
  let rapport := rapport +:+ ("Jalons:" +:+ NL) in
  let rapport := ajouter_lignes ligne_jalon (Projet.jalons p) rapport in
  let rapport := rapport +:+ ("Risques:" +:+ NL) in
  let rapport := ajouter_lignes ligne_risque (Projet.risques p) rapport in
  let rapport := rapport +:+ ("Chemin Critique:" +:+ NL) in
  ajouter_lignes_taches ligne_chemin (Projet.chemin_critique p) rapport.

End Rapport.

(** ** The projects of the examples *)

Module Examples.

Definition modou : Membre.t :=
  {| Membre.nom := "Modou"; Membre.role := "Chef de projet" |}.
Definition christian : Membre.t :=
  {| Membre.nom := "Christian"; Membre.role := "Développeur" |}.

Definition awa : Membre.t :=
  {| Membre.nom := "Awa"; Membre.role := "Testeuse" |}.

(** A strategy whose delivery fails for one recipient: it records the
    attempt, then raises for Christian. *)
Definition strategie_en_panne : NotificationStrategy.t :=
  {| NotificationStrategy.envoyer_message message destinataire :=
       let! _ := print ("tentative: " +:+ Membre.nom destinataire) in
       if String.eqb (Membre.nom destinataire) "Christian"
       then raise (UserException "DeliveryError")
       else ret tt |}.

(** A task that starts on 2024-01-01 and lasts [n] days, [n] at most 30. *)
Definition tache_de (nom : string) (n : Z) (deps : list ref) : Tache.t :=
  {| Tache.nom := nom; Tache.description := "";
     Tache.date_debut := Datetime.date 2024 1 1;
     Tache.date_fin := Datetime.date 2024 1 (1 + n);
     Tache.responsable := modou; Tache.statut := "En cours";
     Tache.dependances := deps |}.

(** The two tasks of the script at the end of [Projet.py]. *)
Definition tache1 : Tache.t :=
  {| Tache.nom := "Analyse des besoins";
     Tache.description := "Description de l'analyse des besoins";
     Tache.date_debut := Datetime.date 2024 1 1;
     Tache.date_fin := Datetime.date 2024 1 31;
     Tache.responsable := modou; Tache.statut := "Terminée";
     Tache.dependances := [] |}.
Definition tache2 : Tache.t :=
  {| Tache.nom := "Développement";
     Tache.description := "Description du développement";
     Tache.date_debut := Datetime.date 2024 2 1;
     Tache.date_fin := Datetime.date 2024 6 30;
     Tache.responsable := christian; Tache.statut := "Non démarrée";
     Tache.dependances := [0] |}.

Definition script_heap : heap := <[0 := tache1]> (<[1 := tache2]> ∅).

Definition projet0 : Projet.t :=
  Projet.init "Nouveau Produit" "Développement d'un nouveau produit"
    (Datetime.date 2024 1 1) (Datetime.date 2024 12 31) (S754_zero false).

Definition state_of (h : heap) (taches : list ref) : State :=
  {| objs := h; projet := Projet.set_taches taches projet0; stdout := [] |}.

(** The diamond: A = 0, B = 1, C = 2, D = 3. *)
Definition diamond_heap : heap :=
  <[0 := tache_de "A" 10 []]> (<[1 := tache_de "B" 5 [0]]>
    (<[2 := tache_de "C" 20 [0]]> (<[3 := tache_de "D" 1 [1; 2]]> ∅))).

(** A cycle: A = 0 depends on B = 1, which depends on A. *)
Definition cycle_heap : heap :=
  <[0 := tache_de "A" 10 [1]]> (<[1 := tache_de "B" 5 [0]]> ∅).

(** An unregistered dependency: X = 0, A = 1 depends on X, B = 2 depends
    on A; only B is added to the project. *)
Definition chain_heap : heap :=
  <[0 := tache_de "X" 3 []]> (<[1 := tache_de "A" 10 [0]]>
    (<[2 := tache_de "B" 5 [1]]> ∅)).

(** A project with one member and the email strategy. *)
Definition state_email : State :=
  {| objs := script_heap;
     projet := Projet.set_equipe {| Equipe.membres := [modou] |}
                 (Projet.set_notification_context
                    (Some {| NotificationContext.strategy :=
                               EmailNotificationStrategy |}) projet0);
     stdout := [] |}.

End Examples.

(** ** The predicates of the statements *)

(** Every memoized path ends with the task it is memoized for. *)
Definition memo_wf (memo : Memo) : Prop :=
  forall k r, memo !! k = Some r -> last r.2 = Some k.

(** [edge h a b]: the object [a] lists [b] among its dependencies. *)
Definition edge (h : heap) (a b : ref) : Prop :=
  exists t, h !! a = Some t /\ b ∈ Tache.dependances t.

(** [cyclic h t]: following dependencies from [t] leads to a task that is on
    a dependency cycle. *)
Definition cyclic (h : heap) (t : ref) : Prop :=
  exists c, rtc (edge h) t c /\ tc (edge h) c c.

(** No task that leads to a cycle is memoized. *)
Definition no_cyclic (h : heap) (memo : Memo) : Prop :=
  forall k, is_Some (memo !! k) -> ~ cyclic h k.

(** What a run from [memo] to [memo'], started for the tasks [from], does to
    the dictionary: the entries it found are kept as they were, no task
    leading to a cycle is memoized, every new entry is for a task reachable
    from [from], and the run raises when one of [from] leads to a cycle. *)
Definition run_ok {A} (h : heap) (from : list ref)
    (memo : Memo) (o : outcome A) (memo' : Memo) : Prop :=
  memo ⊆ memo' /\ no_cyclic h memo' /\
  (forall k, is_Some (memo' !! k) -> memo !! k = None ->
     exists d, d ∈ from /\ rtc (edge h) d k) /\
  ((exists d, d ∈ from /\ cyclic h d) -> exists e, o = Raise e).

(** [ranked h rank]: every dependency has a smaller rank than the task that
    lists it; such a [rank] exists exactly when no cycle does. *)
Definition ranked (h : heap) (rank : ref -> nat) : Prop :=
  forall a b, edge h a b -> rank b < rank a.

(** The versions recorded are 1, 2, ..., n and the counter is at n + 1. *)
Definition changements_ok (p : Projet.t) : Prop :=
  Changement.version <$> Projet.changements p
    = seqZ 1 (Z.of_nat (length (Projet.changements p)))
  /\ Projet.version p = (1 + Z.of_nat (length (Projet.changements p)))%Z.

(** The recurrence that an entry [r] memoized for the task [k] obeys: a task
    without dependencies is memoized as [(0, [k])]; a task with dependencies
    is memoized from the entries [ds] of its dependencies, in their declared
    order, as the first entry of greatest length among [(0, []) :: ds], with
    the task's span added to the length and the task added to the path. *)
Definition entry_ok (h : heap) (memo : Memo) (k : ref) (r : Z * list ref) : Prop :=
  exists t : Tache.t,
    h !! k = Some t /\
    match Tache.dependances t with
    | [] => r = (0%Z, [k])
    | deps =>
        exists ds,
          Forall2 (fun d rd => memo !! d = Some rd) deps ds
          /\ r = (((max_from (0%Z, []) ds).1 + Tache.span t)%Z,
                  (max_from (0%Z, []) ds).2 ++ [k])
    end.

Definition memo_rec (h : heap) (memo : Memo) : Prop :=
  forall k r, memo !! k = Some r -> entry_ok h memo k r.

(** [contains sub s]: Python's [sub in s] for two strings. *)
Definition contains (sub s : string) : Prop :=
  exists pre post, s = pre +:+ sub +:+ post.

(** A path in which every task depends directly on the task before it. *)
Fixpoint is_chain (h : heap) (path : list ref) : Prop :=
  match path with
  | a :: (b :: _) as rest => edge h b a /\ is_chain h rest
  | _ => True
  end.

(** What a task on a memoized path adds to the memoized length: its span
    when it has dependencies, nothing when it has none. *)
Definition counted_span (h : heap) (k : ref) : Z :=
  match h !! k with
  | Some t =>
      match Tache.dependances t with
      | [] => 0%Z
      | _ :: _ => Tache.span t
      end
  | None => 0%Z
  end.

(** Two heaps in which the same references designate tasks with the same
    dependencies and the same span. *)
Definition same_graph (h h' : heap) : Prop :=
  forall r,
    (fun t => (Tache.dependances t, Tache.span t)) <$> (h !! r)
    = (fun t => (Tache.dependances t, Tache.span t)) <$> (h' !! r).

(** The calls that end with [self.notifier(...)]. *)
Definition notifying (c : call) : bool :=
  match c with
  | AjouterMembre _ | AjouterTache _ | AjouterMembreEquipe _ | DefinirBudget _
  | AjouterRisque _ | AjouterJalon _ | EnregistrerChangement _ _ => true
  | _ => false
  end.

Definition sets_strategy (c : call) : bool :=
  match c with
  | SetNotificationStrategy _ => true
  | _ => false
  end.

(** A strategy that, like the three of the file, prints one line per
    delivery and nothing else. *)
Definition prints (st : NotificationStrategy.t)
    (line : string -> Membre.t -> string) : Prop :=
  forall message destinataire,
    NotificationStrategy.envoyer_message st message destinataire
    = print (line message destinataire).

(** The five lists of the project grow at their end only. *)
Definition grows (p p' : Projet.t) : Prop :=
  Projet.taches p `prefix_of` Projet.taches p'
  /\ Equipe.membres (Projet.equipe p) `prefix_of` Equipe.membres (Projet.equipe p')
  /\ Projet.risques p `prefix_of` Projet.risques p'
  /\ Projet.jalons p `prefix_of` Projet.jalons p'
  /\ Projet.changements p `prefix_of` Projet.changements p'.

(** What every call keeps of a [Tache] object: all its fields but the
    status, and the dependencies it already has. *)
Definition tache_extends (t t' : Tache.t) : Prop :=
  Tache.nom t' = Tache.nom t
  /\ Tache.description t' = Tache.description t
  /\ Tache.date_debut t' = Tache.date_debut t
  /\ Tache.date_fin t' = Tache.date_fin t
  /\ Tache.responsable t' = Tache.responsable t
  /\ Tache.dependances t `prefix_of` Tache.dependances t'.

(** The lines of a list, one after the other. *)
Definition lignes {A} (ligne : A -> string) (xs : list A) : string :=
  foldr (fun x rest => ligne x +:+ rest) "" xs.

(** The calls that change the task list of the project or the dependency
    graph. *)
Definition touches_graph (c : call) : bool :=
  match c with
  | AjouterTache _ | NewTache _ | TacheAjouterDependance _ _ => true
  | _ => false
  end.

(** [heap_closed] and [ranked] are decidable: both are a check of every
    dependency of every object of the heap. *)
#[global] Instance heap_closed_dec h : Decision (heap_closed h).
Proof.
  refine (cast_if (decide (map_Forall
    (fun _ t => Forall (fun d => is_Some (h !! d)) (Tache.dependances t)) h))).
  - intros r t d Ht Hd. specialize (m r t Ht).
    rewrite Forall_forall in m. by apply m.
  - intros Hclosed. apply n. intros r t Ht. apply Forall_forall.
    intros d Hd. by eapply Hclosed.
Defined.

#[global] Instance ranked_dec h rank : Decision (ranked h rank).
Proof.
  refine (cast_if (decide (map_Forall
    (fun a t => Forall (fun b => rank b < rank a) (Tache.dependances t)) h))).
  - intros a b (t & Ht & Hb). specialize (m a t Ht).
    rewrite Forall_forall in m. by apply m.
  - intros Hrank. apply n. intros a t Ht. apply Forall_forall.
    intros b Hb. apply Hrank. by exists t.
Defined.

Import Examples.

(** * Proofs *)

Ltac run_monad :=
  unfold deref, with_memo, assign;
  unfold bind, modify, get, ret, raise; cbn -[notifier].

(** ** Unfolding equations *)

Lemma for_dependances_cons rec dep deps acc memo :
  for_dependances rec (dep :: deps) acc memo =
    match rec dep memo with
    | (Return r, memo') =>
        for_dependances rec deps (if (r.1 >? acc.1)%Z then r else acc) memo'
    | (Raise e, memo') => (Raise e, memo')
    end.
Proof. reflexivity. Qed.

Lemma find_longest_path_S depth h tache memo :
  find_longest_path (S depth) h tache memo =
    match memo !! tache with
    | Some r => (Return r, memo)
    | None =>
        match h !! tache with
        | None => (Raise InvalidRef, memo)
        | Some t =>
            match Tache.dependances t with
            | [] => (Return (0%Z, [tache]), <[tache := (0%Z, [tache])]> memo)
            | _ :: _ =>
                match for_dependances (find_longest_path depth h)
                        (Tache.dependances t) (0%Z, []) memo with
                | (Return m, memo') =>
                    (Return ((m.1 + Tache.span t)%Z, m.2 ++ [tache]),
                     <[tache := ((m.1 + Tache.span t)%Z, m.2 ++ [tache])]> memo')
                | (Raise e, memo') => (Raise e, memo')
                end
            end
        end
    end.
Proof.
  cbn [find_longest_path]. unfold bind, get, deref, ret, raise, modify.
  destruct (memo !! tache) as [r|]; [reflexivity|].
  destruct (h !! tache) as [t|]; [|reflexivity].
  destruct (Tache.dependances t) as [|d ds]; [reflexivity|].
  destruct (for_dependances _ _ _ _) as [[m|e] memo']; reflexivity.
Qed.

Lemma all_paths_cons depth h tache taches memo :
  all_paths depth h (tache :: taches) memo =
    match find_longest_path depth h tache memo with
    | (Return r, memo') =>
        match all_paths depth h taches memo' with
        | (Return rs, memo'') => (Return (r :: rs), memo'')
        | (Raise e, memo'') => (Raise e, memo'')
        end
    | (Raise e, memo') => (Raise e, memo')
    end.
Proof.
  cbn [all_paths]. unfold bind, ret.
  destruct (find_longest_path _ _ _ _) as [[r|e] memo']; [|reflexivity].
  destruct (all_paths _ _ _ _) as [[rs|e] memo'']; reflexivity.
Qed.

Lemma calculer_chemin_critique_eq depth s :
  calculer_chemin_critique depth s =
    match (all_paths depth (objs s) (Projet.taches (projet s)) ∅).1 with
    | Return [] => (Raise ValueError, s)
    | Return (x :: l) =>
        (Return tt,
         set_projet (Projet.set_chemin_critique (max_from x l).2 (projet s)) s)
    | Raise e => (Raise e, s)
    end.
Proof.
  unfold calculer_chemin_critique, bind, get, with_memo, py_max, assign,
    modify, ret, raise.
  destruct (all_paths _ _ _ _) as [[[|x l]|e] memo]; reflexivity.
Qed.

(** ** Invariants of the memo dictionary *)

(** A loop over the dependencies keeps what every recursive call keeps. *)
Lemma for_dependances_inv (I : Memo -> Prop) rec deps :
  (forall d memo o memo',
      d ∈ deps -> I memo -> rec d memo = (o, memo') -> I memo') ->
  forall acc memo o memo',
    I memo -> for_dependances rec deps acc memo = (o, memo') -> I memo'.
Proof.
  induction deps as [|d deps IH]; intros Hrec acc memo o memo' HI Hrun.
  - cbn in Hrun. unfold ret in Hrun. by simplify_eq.
  - rewrite for_dependances_cons in Hrun.
    destruct (rec d memo) as [[r|e] memo1] eqn:Hd.
    + eapply IH; [| |exact Hrun].
      * intros d' m o' m' Hin. apply Hrec. by right.
      * eapply Hrec; [by left|exact HI|exact Hd].
    + simplify_eq. eapply Hrec; [by left|exact HI|exact Hd].
Qed.

(** [find_longest_path] keeps every property of the dictionary that is kept
    by storing, for a task, a path that ends with that task. *)
Lemma find_longest_path_inv (I : Memo -> Prop) h :
  (forall memo tache l p, I memo -> I (<[tache := (l, p ++ [tache])]> memo)) ->
  forall depth tache memo o memo',
    I memo -> find_longest_path depth h tache memo = (o, memo') -> I memo'.
Proof.
  intros Hins. induction depth as [|depth IH]; intros tache memo o memo' HI Hrun.
  - cbn in Hrun. unfold raise in Hrun. by simplify_eq.
  - rewrite find_longest_path_S in Hrun.
    destruct (memo !! tache) as [r|]; [by simplify_eq|].
    destruct (h !! tache) as [t|]; [|by simplify_eq].
    destruct (Tache.dependances t) as [|d ds] eqn:Hdeps.
    + simplify_eq. apply (Hins memo tache 0%Z []), HI.
    + destruct (for_dependances _ _ _ _) as [[m|e] memo1] eqn:Hloop.
      * simplify_eq. apply Hins.
        eapply for_dependances_inv; [|exact HI|exact Hloop].
        intros d' m' o' m'' _. apply IH.
      * simplify_eq.
        eapply for_dependances_inv; [|exact HI|exact Hloop].
        intros d' m' o' m'' _. apply IH.
Qed.

Lemma memo_wf_empty : memo_wf ∅.
Proof. intros k r H. by rewrite lookup_empty in H. Qed.

Lemma memo_wf_insert memo tache l p :
  memo_wf memo -> memo_wf (<[tache := (l, p ++ [tache])]> memo).
Proof.
  intros Hwf k r. rewrite lookup_insert. case_decide.
  - intros [= <-]. subst. cbn. apply last_snoc.
  - apply Hwf.
Qed.

Lemma find_longest_path_wf depth h tache memo o memo' :
  memo_wf memo -> find_longest_path depth h tache memo = (o, memo') ->
  memo_wf memo'.
Proof. apply find_longest_path_inv. intros. by apply memo_wf_insert. Qed.

(** What [find_longest_path] returns is what the dictionary then holds for
    the task. *)
Lemma find_longest_path_memoized depth h tache memo r memo' :
  find_longest_path depth h tache memo = (Return r, memo') ->
  memo' !! tache = Some r.
Proof.
  destruct depth as [|depth]; [by cbn|].
  rewrite find_longest_path_S.
  destruct (memo !! tache) as [r0|] eqn:Hm; [by intros; simplify_eq|].
  destruct (h !! tache) as [t|]; [|by intros; simplify_eq].
  destruct (Tache.dependances t) as [|d ds].
  - intros. simplify_eq. apply lookup_insert_eq.
  - destruct (for_dependances _ _ _ _) as [[m|e] memo1]; intros; simplify_eq.
    apply lookup_insert_eq.
Qed.

Lemma all_paths_wf depth h taches : forall memo o memo',
  memo_wf memo -> all_paths depth h taches memo = (o, memo') ->
  memo_wf memo' /\
  forall paths, o = Return paths ->
    Forall2 (fun tache r => last r.2 = Some tache) taches paths.
Proof.
  induction taches as [|tache taches IH]; intros memo o memo' Hwf Hrun.
  - cbn in Hrun. unfold ret in Hrun. simplify_eq. split; [done|].
    intros paths [= <-]. constructor.
  - rewrite all_paths_cons in Hrun.
    destruct (find_longest_path _ _ _ _) as [[r|e] memo1] eqn:Hfind.
    + pose proof (find_longest_path_wf _ _ _ _ _ _ Hwf Hfind) as Hwf1.
      pose proof (find_longest_path_memoized _ _ _ _ _ _ Hfind) as Hr.
      destruct (all_paths _ _ _ _) as [[rs|e] memo2] eqn:Hrest.
      * destruct (IH _ _ _ Hwf1 Hrest) as [Hwf2 Hrs]. simplify_eq.
        split; [done|]. intros paths [= <-]. constructor; [|by apply Hrs].
        by apply Hwf1.
      * destruct (IH _ _ _ Hwf1 Hrest) as [Hwf2 _]. simplify_eq.
        split; [done|]. by intros paths [=].
    + simplify_eq. split; [|by intros paths [=]].
      eapply find_longest_path_wf; eauto.
Qed.

(** [max] returns one of the items. *)
Lemma max_from_elem {A} (l : list (Z * A)) : forall best,
  max_from best l ∈ best :: l.
Proof.
  induction l as [|x l Hind]; intros best; cbn.
  - by left.
  - pose proof (Hind (if (x.1 >? best.1)%Z then x else best)) as Hmax.
    destruct (x.1 >? best.1)%Z; apply elem_of_cons in Hmax as [->|Hmax];
      rewrite !elem_of_cons; auto.
Qed.

(** ** The dependency graph *)

Lemma cyclic_step h t : cyclic h t -> exists d, edge h t d /\ cyclic h d.
Proof.
  intros (c & Hreach & Hcycle).
  destruct Hreach as [t|t d c Hedge Hreach].
  - inversion Hcycle as [? ? Hedge|? d ? Hedge Hback]; subst.
    + exists t. split; [done|]. exists t. split; [constructor|done].
    + exists d. split; [done|]. exists t. split; [by apply tc_rtc|done].
  - exists d. split; [done|]. by exists c.
Qed.

Lemma no_cyclic_empty h : no_cyclic h ∅.
Proof. intros k [r Hr]. by rewrite lookup_empty in Hr. Qed.

Lemma for_dependances_run_ok h rec deps :
  (forall d memo o memo',
      no_cyclic h memo -> rec d memo = (o, memo') -> run_ok h [d] memo o memo') ->
  forall acc memo o memo',
    no_cyclic h memo -> for_dependances rec deps acc memo = (o, memo') ->
    run_ok h deps memo o memo'.
Proof.
  intros Hrec. induction deps as [|d deps IH]; intros acc memo o memo' Hno Hrun.
  - cbn in Hrun. unfold ret in Hrun. simplify_eq.
    unfold run_ok; split_and!; [done|done|..].
    + intros k Hk Hnone. rewrite Hnone in Hk. by destruct Hk.
    + intros (d & Hd & _). by apply elem_of_nil in Hd.
  - rewrite for_dependances_cons in Hrun.
    destruct (rec d memo) as [[r|e] memo1] eqn:Hd;
      destruct (Hrec _ _ _ _ Hno Hd) as (Hsub1 & Hno1 & Hnew1 & Hcyc1).
    + destruct (IH _ _ _ _ Hno1 Hrun) as (Hsub & Hno' & Hnew & Hcyc).
      unfold run_ok; split_and!; [by etrans|done|..].
      * intros k Hk Hnone. destruct (memo1 !! k) as [r1|] eqn:Hk1.
        -- destruct (Hnew1 k) as (d' & ->%list_elem_of_singleton & Hreach);
             [by eexists|done|].
           exists d. split; [by left|done].
        -- destruct (Hnew k Hk Hk1) as (d' & Hin & Hreach).
           exists d'. split; [by right|done].
      * intros (d' & [->|Hin]%elem_of_cons & Hbad).
        -- destruct Hcyc1 as [e He]; [|done]. exists d. split; [by left|done].
        -- apply Hcyc. by exists d'.
    + simplify_eq. unfold run_ok; split_and!; [done|done|..].
      * intros k Hk Hnone.
        destruct (Hnew1 k Hk Hnone) as (d' & ->%list_elem_of_singleton & Hreach).
        exists d. split; [by left|done].
      * by eexists.
Qed.

Lemma find_longest_path_run_ok h depth : forall tache memo o memo',
  no_cyclic h memo -> find_longest_path depth h tache memo = (o, memo') ->
  run_ok h [tache] memo o memo'.
Proof.
  induction depth as [|depth IH]; intros tache memo o memo' Hno Hrun.
  - cbn in Hrun. unfold raise in Hrun. simplify_eq.
    unfold run_ok; split_and!; [done|done|..].
    + intros k Hk Hnone. rewrite Hnone in Hk. by destruct Hk.
    + by eexists.
  - rewrite find_longest_path_S in Hrun.
    destruct (memo !! tache) as [r|] eqn:Hmemo.
    { simplify_eq. unfold run_ok; split_and!; [done|done|..].
      - intros k Hk Hnone. rewrite Hnone in Hk. by destruct Hk.
      - intros (d & ->%list_elem_of_singleton & Hbad).
        destruct (Hno tache); [by eexists|done]. }
    destruct (h !! tache) as [t|] eqn:Hobj.
    2:{ simplify_eq. unfold run_ok; split_and!; [done|done|..].
        - intros k Hk Hnone. rewrite Hnone in Hk. by destruct Hk.
        - by eexists. }
    assert (Hdeps : forall d, edge h tache d -> d ∈ Tache.dependances t).
    { intros d (t' & Ht' & Hin). by simplify_eq. }
    destruct (Tache.dependances t) as [|d0 ds] eqn:Hlist.
    { assert (Hgood : ~ cyclic h tache).
      { intros (d & Hedge & _)%cyclic_step. apply Hdeps in Hedge.
        by apply elem_of_nil in Hedge. }
      simplify_eq. unfold run_ok; split_and!.
      - by apply insert_subseteq.
      - intros k. rewrite lookup_insert. case_decide; [by subst|apply Hno].
      - intros k. rewrite lookup_insert. case_decide.
        + subst. intros _ _. exists k. split; [by left|constructor].
        + intros Hk Hnone. rewrite Hnone in Hk. by destruct Hk.
      - intros (d & ->%list_elem_of_singleton & Hbad). done. }
    rewrite <- Hlist in *. clear Hlist d0 ds.
    destruct (for_dependances _ _ _ _) as [[m|e] memo1] eqn:Hloop;
      destruct (for_dependances_run_ok h _ _ IH _ _ _ _ Hno Hloop)
        as (Hsub & Hno1 & Hnew & Hcyc); simplify_eq.
    + assert (Hgood : ~ cyclic h tache).
      { intros (d & Hedge & Hbad)%cyclic_step.
        destruct Hcyc as [e He]; [|done]. exists d. split; [by apply Hdeps|done]. }
      assert (Hfresh : memo1 !! tache = None).
      { destruct (memo1 !! tache) as [r|] eqn:Hr; [|done].
        destruct (Hnew tache) as (d & Hin & Hreach); [by eexists|done|].
        destruct (Hno1 tache); [by eexists|].
        exists tache. split; [constructor|].
        eapply tc_rtc_r; [|exact Hreach]. apply tc_once. by exists t. }
      unfold run_ok; split_and!.
      * etrans; [exact Hsub|]. by apply insert_subseteq.
      * intros k. rewrite lookup_insert. case_decide; [by subst|apply Hno1].
      * intros k. rewrite lookup_insert. case_decide.
        -- subst. intros _ _. exists k. split; [by left|constructor].
        -- intros Hk Hnone. destruct (Hnew k Hk Hnone) as (d & Hin & Hreach).
           exists tache. split; [by left|].
           eapply rtc_l; [|exact Hreach]. by exists t.
      * intros (d & ->%list_elem_of_singleton & Hbad). done.
    + unfold run_ok; split_and!; [done|done|..].
      * intros k Hk Hnone. destruct (Hnew k Hk Hnone) as (d & Hin & Hreach).
        exists tache. split; [by left|].
        eapply rtc_l; [|exact Hreach]. by exists t.
      * by eexists.
Qed.

Lemma all_paths_run_ok h depth taches : forall memo o memo',
  no_cyclic h memo -> all_paths depth h taches memo = (o, memo') ->
  run_ok h taches memo o memo'.
Proof.
  induction taches as [|tache taches IH]; intros memo o memo' Hno Hrun.
  - cbn in Hrun. unfold ret in Hrun. simplify_eq.
    unfold run_ok; split_and!; [done|done|..].
    + intros k Hk Hnone. rewrite Hnone in Hk. by destruct Hk.
    + intros (d & Hd & _). by apply elem_of_nil in Hd.
  - rewrite all_paths_cons in Hrun.
    destruct (find_longest_path _ _ _ _) as [[r|e] memo1] eqn:Hfind;
      destruct (find_longest_path_run_ok _ _ _ _ _ _ Hno Hfind)
        as (Hsub1 & Hno1 & Hnew1 & Hcyc1).
    + assert (Hrest : exists o2, all_paths depth h taches memo1 = (o2, memo')
                                 /\ (forall e, o2 = Raise e -> o = Raise e)).
      { destruct (all_paths _ _ _ memo1) as [[rs|e] memo2]; simplify_eq;
          eexists; split; done. }
      destruct Hrest as (o2 & Hrest & Hraise).
      destruct (IH _ _ _ Hno1 Hrest) as (Hsub & Hno' & Hnew & Hcyc).
      unfold run_ok; split_and!; [by etrans|done|..].
      * intros k Hk Hnone. destruct (memo1 !! k) as [r1|] eqn:Hk1.
        -- destruct (Hnew1 k) as (d' & ->%list_elem_of_singleton & Hreach);
             [by eexists|done|].
           exists tache. split; [by left|done].
        -- destruct (Hnew k Hk Hk1) as (d' & Hin & Hreach).
           exists d'. split; [by right|done].
      * intros (d' & [->|Hin]%elem_of_cons & Hbad).
        -- destruct Hcyc1 as [e He]; [|done].
           exists tache. split; [by left|done].
        -- destruct Hcyc as [e He]; [by exists d'|]. exists e. by apply Hraise.
    + simplify_eq. unfold run_ok; split_and!; [done|done|..].
      * intros k Hk Hnone.
        destruct (Hnew1 k Hk Hnone) as (d' & ->%list_elem_of_singleton & Hreach).
        exists tache. split; [by left|done].
      * by eexists.
Qed.

Lemma all_paths_app depth h pre post memo :
  all_paths depth h (pre ++ post) memo =
    match all_paths depth h pre memo with
    | (Return rs, memo1) =>
        match all_paths depth h post memo1 with
        | (Return rs', memo2) => (Return (rs ++ rs'), memo2)
        | (Raise e, memo2) => (Raise e, memo2)
        end
    | (Raise e, memo1) => (Raise e, memo1)
    end.
Proof.
  revert memo. induction pre as [|tache pre IH]; intros memo.
  - cbn. unfold ret. by destruct (all_paths _ _ _ _) as [[rs|e] memo2].
  - rewrite <- app_comm_cons, !all_paths_cons.
    destruct (find_longest_path _ _ _ _) as [[r|e] memo1]; [|done].
    rewrite IH. destruct (all_paths depth h pre memo1) as [[rs|e] memo2]; [|done].
    by destruct (all_paths depth h post memo2) as [[rs'|e] memo3].
Qed.

(** ** The exceptions of [find_longest_path] *)

(** On a closed heap the only exception is [RecursionError]. *)
Lemma for_dependances_raises rec deps :
  (forall d memo e memo',
      d ∈ deps -> rec d memo = (Raise e, memo') -> e = RecursionError) ->
  forall acc memo e memo',
    for_dependances rec deps acc memo = (Raise e, memo') -> e = RecursionError.
Proof.
  induction deps as [|d deps IH]; intros Hrec acc memo e memo' Hrun.
  - by cbn in Hrun.
  - rewrite for_dependances_cons in Hrun.
    destruct (rec d memo) as [[r|e1] memo1] eqn:Hd.
    + eapply IH; [|exact Hrun]. intros d' m e' m' Hin. apply Hrec. by right.
    + simplify_eq. eapply Hrec; [by left|exact Hd].
Qed.

Lemma find_longest_path_raises h depth :
  heap_closed h ->
  forall tache memo e memo',
    is_Some (h !! tache) ->
    find_longest_path depth h tache memo = (Raise e, memo') ->
    e = RecursionError.
Proof.
  intros Hclosed. induction depth as [|depth IH]; intros tache memo e memo' Hobj Hrun.
  - cbn in Hrun. unfold raise in Hrun. by simplify_eq.
  - rewrite find_longest_path_S in Hrun.
    destruct (memo !! tache) as [r|]; [by simplify_eq|].
    destruct Hobj as [t Ht]. rewrite Ht in Hrun.
    destruct (Tache.dependances t) as [|d0 ds] eqn:Hlist; [by simplify_eq|].
    rewrite <- Hlist in *.
    destruct (for_dependances _ _ _ _) as [[m|e1] memo1] eqn:Hloop; simplify_eq.
    eapply for_dependances_raises; [|exact Hloop].
    intros d m e' m' Hin. apply IH. by eapply Hclosed.
Qed.

Lemma all_paths_raises h depth taches :
  heap_closed h -> (forall t, t ∈ taches -> is_Some (h !! t)) ->
  forall memo e memo',
    all_paths depth h taches memo = (Raise e, memo') -> e = RecursionError.
Proof.
  intros Hclosed. induction taches as [|tache taches IH]; intros Hobjs memo e memo' Hrun.
  - by cbn in Hrun.
  - rewrite all_paths_cons in Hrun.
    destruct (find_longest_path _ _ _ _) as [[r|e1] memo1] eqn:Hfind.
    + destruct (all_paths _ _ _ memo1) as [[rs|e2] memo2] eqn:Hrest; simplify_eq.
      eapply IH; [|exact Hrest]. intros t Hin. apply Hobjs. by right.
    + simplify_eq. eapply find_longest_path_raises; [done| |exact Hfind].
      apply Hobjs. by left.
Qed.

(** ** Termination on acyclic graphs *)

Lemma for_dependances_returns rec deps :
  (forall d memo, d ∈ deps -> exists r memo', rec d memo = (Return r, memo')) ->
  forall acc memo,
    exists m memo', for_dependances rec deps acc memo = (Return m, memo').
Proof.
  induction deps as [|d deps IH]; intros Hrec acc memo.
  - by eexists _, _.
  - rewrite for_dependances_cons.
    destruct (Hrec d memo) as (r & memo1 & ->); [by left|].
    apply IH. intros d' m Hin. apply Hrec. by right.
Qed.

Lemma find_longest_path_returns h rank :
  heap_closed h -> ranked h rank ->
  forall depth tache memo,
    is_Some (h !! tache) -> rank tache < depth ->
    exists r memo', find_longest_path depth h tache memo = (Return r, memo').
Proof.
  intros Hclosed Hrank.
  induction depth as [|depth IH]; intros tache memo [t Ht] Hlt; [lia|].
  rewrite find_longest_path_S.
  destruct (memo !! tache) as [r|]; [by eexists _, _|].
  rewrite Ht. destruct (Tache.dependances t) as [|d0 ds] eqn:Hlist;
    [by eexists _, _|].
  rewrite <- Hlist.
  destruct (for_dependances_returns (find_longest_path depth h)
              (Tache.dependances t)) with (acc := (0%Z, @nil ref)) (memo := memo)
    as (m & memo1 & ->).
  - intros d m Hin. apply IH; [by eapply Hclosed|].
    assert (rank d < rank tache); [|lia]. apply Hrank. by exists t.
  - by eexists _, _.
Qed.

Lemma all_paths_returns h rank depth taches :
  heap_closed h -> ranked h rank ->
  (forall t, t ∈ taches -> is_Some (h !! t) /\ rank t < depth) ->
  forall memo,
    exists rs memo', all_paths depth h taches memo = (Return rs, memo')
                     /\ length rs = length taches.
Proof.
  intros Hclosed Hrank.
  induction taches as [|tache taches IH]; intros Hobjs memo.
  - by eexists _, _.
  - rewrite all_paths_cons.
    destruct (find_longest_path_returns h rank Hclosed Hrank depth tache memo)
      as (r & memo1 & ->); [apply Hobjs; by left..|].
    destruct (IH (fun t Hin => Hobjs t (list_elem_of_further _ _ _ Hin)) memo1)
      as (rs & memo2 & -> & Hlen).
    eexists _, _. split; [done|]. cbn. by rewrite Hlen.
Qed.

(** ** Notification *)

Lemma notifier_context_cons ctx message d ds out :
  NotificationContext.notifier ctx message (d :: ds) out =
    match NotificationStrategy.envoyer_message (NotificationContext.strategy ctx)
            message d out with
    | (Return _, out') => NotificationContext.notifier ctx message ds out'
    | (Raise e, out') => (Raise e, out')
    end.
Proof. reflexivity. Qed.

(** The broadcast over [pre ++ k :: post] is the broadcast over [pre], then
    the delivery to [k], then the broadcast over [post]; the first exception
    ends it. *)
Lemma notifier_context_app ctx message pre k post : forall out,
  NotificationContext.notifier ctx message (pre ++ k :: post) out =
    match NotificationContext.notifier ctx message pre out with
    | (Return _, out1) =>
        match NotificationStrategy.envoyer_message
                (NotificationContext.strategy ctx) message k out1 with
        | (Return _, out2) => NotificationContext.notifier ctx message post out2
        | (Raise e, out2) => (Raise e, out2)
        end
    | (Raise e, out1) => (Raise e, out1)
    end.
Proof.
  induction pre as [|d pre IH]; intros out.
  - reflexivity.
  - rewrite <- app_comm_cons, !notifier_context_cons.
    destruct (NotificationStrategy.envoyer_message _ _ _ _) as [[[]|e] out']; [|done].
    apply IH.
Qed.

(** A strategy that prints one line per delivery and never raises delivers
    to every recipient, in order. *)
Lemma notifier_context_print ctx (line : string -> Membre.t -> string) message :
  (forall m d, NotificationStrategy.envoyer_message
                 (NotificationContext.strategy ctx) m d = print (line m d)) ->
  forall ds out,
    NotificationContext.notifier ctx message ds out =
      (Return tt, out ++ map (line message) ds).
Proof.
  intros Hprint. induction ds as [|d ds IH]; intros out.
  - cbn. unfold ret. by rewrite app_nil_r.
  - rewrite notifier_context_cons, Hprint. unfold print, modify.
    rewrite IH. cbn. by rewrite <- app_assoc.
Qed.

Lemma notifier_frame message s :
  projet (notifier message s).2 = projet s /\ objs (notifier message s).2 = objs s.
Proof.
  unfold notifier, bind, get, ret, on_stdout.
  destruct (Projet.notification_context (projet s)) as [ctx|]; [|done].
  by destruct (NotificationContext.notifier _ _ _ _) as [o out].
Qed.

Lemma notifier_projet message s : projet (notifier message s).2 = projet s.
Proof. apply notifier_frame. Qed.

(** ** The change log *)

Lemma enregistrer_changement_eq description now s :
  enregistrer_changement description now s =
    notifier ("Changement enregistré: " +:+ description +:+ " (version "
              +:+ str_int (Projet.version (projet s) + 1) +:+ ")")
      (set_projet
         (Projet.set_version (Projet.version (projet s) + 1)
            (Projet.set_changements
               (Projet.changements (projet s)
                  ++ [{| Changement.description := description;
                         Changement.version := Projet.version (projet s);
                         Changement.date := now |}])
               (projet s)))
         s).
Proof. reflexivity. Qed.

Lemma calculer_chemin_critique_frame depth s :
  (calculer_chemin_critique depth s).2 = s \/
  exists path,
    (calculer_chemin_critique depth s).2 =
      set_projet (Projet.set_chemin_critique path (projet s)) s.
Proof.
  rewrite calculer_chemin_critique_eq.
  destruct (all_paths _ _ _ _).1 as [[|x l]|e]; cbn; eauto.
Qed.

(** What a call does to the change log and to the version counter: nothing,
    unless it is [enregistrer_changement]. *)
Lemma do_call_changements str_float c s :
  let p := projet s in
  let p' := projet (do_call str_float c s).2 in
  (Projet.changements p' = Projet.changements p
   /\ Projet.version p' = Projet.version p)
  \/ exists description now,
       Projet.changements p' =
         Projet.changements p
           ++ [{| Changement.description := description;
                  Changement.version := Projet.version p;
                  Changement.date := now |}]
       /\ Projet.version p' = (Projet.version p + 1)%Z.
Proof.
  destruct c; cbn [do_call].
  - left. unfold ajouter_membre. run_monad. by rewrite notifier_projet.
  - left. unfold set_notification_strategy. by run_monad.
  - left. unfold ajouter_tache. run_monad.
    destruct (objs s !! tache); cbn -[notifier]; [by rewrite notifier_projet|done].
  - left. unfold ajouter_membre_equipe. run_monad. by rewrite notifier_projet.
  - left. unfold definir_budget. run_monad. by rewrite notifier_projet.
  - left. unfold ajouter_risque. run_monad. by rewrite notifier_projet.
  - left. unfold ajouter_jalon. run_monad. by rewrite notifier_projet.
  - right. exists description, now.
    by rewrite enregistrer_changement_eq, notifier_projet.
  - left. destruct (calculer_chemin_critique_frame depth s) as [->|[path ->]]; done.
  - left. unfold new_Tache. by run_monad.
  - left. unfold tache_ajouter_dependance. run_monad.
    by destruct (objs s !! tache).
  - left. unfold tache_mettre_a_jour_statut. run_monad.
    by destruct (objs s !! tache).
Qed.

Lemma do_call_changements_ok str_float c s :
  changements_ok (projet s) -> changements_ok (projet (do_call str_float c s).2).
Proof.
  intros [Hlog Hversion].
  destruct (do_call_changements str_float c s)
    as [[Hc Hv]|(description & now & Hc & Hv)]; cbn zeta in *.
  - split; by rewrite Hc, ?Hv.
  - split.
    + rewrite Hc, fmap_app, length_app, Hlog. cbn.
      rewrite Nat2Z.inj_add, seqZ_app by lia. by rewrite Hversion.
    + rewrite Hv, Hc, length_app, Hversion. cbn. lia.
Qed.

Lemma run_calls_changements_ok str_float cs : forall s,
  changements_ok (projet s) -> changements_ok (projet (run_calls str_float cs s)).
Proof.
  induction cs as [|c cs IH]; intros s Hok; [done|].
  cbn. apply IH. by apply do_call_changements_ok.
Qed.

Lemma run_calls_changements_prefix str_float cs : forall s,
  Projet.changements (projet s)
    `prefix_of` Projet.changements (projet (run_calls str_float cs s)).
Proof.
  induction cs as [|c cs IH]; intros s; [done|].
  cbn. etrans; [|apply IH].
  destruct (do_call_changements str_float c s)
    as [[Hc _]|(description & now & Hc & _)]; cbn zeta in *; rewrite Hc.
  - done.
  - by apply prefix_app_r.
Qed.

(** ** The base case and the empty project *)

Lemma find_longest_path_leaf depth h tache t memo :
  memo !! tache = None -> h !! tache = Some t -> Tache.dependances t = [] ->
  find_longest_path (S depth) h tache memo
    = (Return (0%Z, [tache]), <[tache := (0%Z, [tache])]> memo).
Proof. intros Hm Ht Hd. by rewrite find_longest_path_S, Hm, Ht, Hd. Qed.

(** C1, evaluated on the first task of the script ([tache1], 2024-01-01 to
    2024-01-31, no dependency): [find_longest_path] memoizes the path
    [[tache1]] with the length 0, while the span of the task is 30 days. *)
Theorem leaf_memoized_length_is_zero :
  find_longest_path 1 script_heap 0 ∅
    = (Return (0%Z, [0]), {[0 := (0%Z, [0])]})
  /\ script_heap !! 0 = Some tache1
  /\ Tache.dependances tache1 = []
  /\ Tache.span tache1 = 30%Z.
Proof. split_and!; [|reflexivity..]. by vm_compute. Qed.

(** C2, evaluated on the diamond A (10 days), B (5 days, after A), C (20
    days, after A), D (1 day, after B and C): whatever the order in which
    the tasks are visited, the length memoized for D is 21 and its path is
    [[C; D]]; the 10 days of the shared ancestor A are counted in no chain. *)
Theorem diamond_memoized_length :
  (all_paths 4 diamond_heap [0; 1; 2; 3] ∅).1
    = Return [(0%Z, [0]); (5%Z, [1]); (20%Z, [2]); (21%Z, [2; 3])]
  /\ (all_paths 4 diamond_heap [3; 2; 1; 0] ∅).1
    = Return [(21%Z, [2; 3]); (20%Z, [2]); (5%Z, [1]); (0%Z, [0])]
  /\ (all_paths 4 diamond_heap [0; 1; 2; 3] ∅).2 !! 3 = Some (21%Z, [2; 3])
  /\ (all_paths 4 diamond_heap [3; 2; 1; 0] ∅).2 !! 3 = Some (21%Z, [2; 3])
  /\ Tache.span <$> diamond_heap = {[0 := 10%Z; 1 := 5%Z; 2 := 20%Z; 3 := 1%Z]}.
Proof. split_and!; by vm_compute. Qed.

(** C4: on a project with no task, [calculer_chemin_critique] raises the
    [ValueError] of [max] on an empty sequence and leaves the project as it
    was; it does not return an empty path of length zero. *)
Theorem empty_task_list_raises_ValueError :
  forall depth h p out,
    calculer_chemin_critique depth
      {| objs := h; projet := Projet.set_taches [] p; stdout := out |}
    = (Raise ValueError,
       {| objs := h; projet := Projet.set_taches [] p; stdout := out |}).
Proof. intros. by rewrite calculer_chemin_critique_eq. Qed.

(** C6, evaluated on the two tasks of the script: [tache2] has the single
    dependency [tache1], whose memoized length 0 is the maximum over the
    dependencies, yet the path memoized for [tache2] is [[tache2]]: the path
    of the first dependency of maximal length is not selected when that
    maximum is 0. *)
Theorem dependency_of_length_zero_not_selected :
  (all_paths 2 script_heap [0; 1] ∅).1
    = Return [(0%Z, [0]); (150%Z, [1])]
  /\ Tache.dependances tache2 = [0]
  /\ Projet.chemin_critique
       (projet (calculer_chemin_critique 2 (state_of script_heap [0; 1])).2)
     = [1].
Proof. split_and!; by vm_compute. Qed.

(** ** Cycles *)

Lemma calculer_chemin_critique_cyclic depth s :
  heap_closed (objs s) ->
  (forall t, t ∈ Projet.taches (projet s) -> is_Some (objs s !! t)) ->
  (exists t, t ∈ Projet.taches (projet s) /\ cyclic (objs s) t) ->
  calculer_chemin_critique depth s = (Raise RecursionError, s).
Proof.
  intros Hclosed Hobjs Hcyc. rewrite calculer_chemin_critique_eq.
  destruct (all_paths _ _ _ _) as [o memo] eqn:Hrun.
  destruct (all_paths_run_ok _ _ _ _ _ _ (no_cyclic_empty _) Hrun)
    as (_ & _ & _ & Hraise).
  destruct (Hraise Hcyc) as [e ->]. cbn.
  by rewrite (all_paths_raises _ _ _ Hclosed Hobjs _ _ _ Hrun).
Qed.

(** The entries memoized while the first tasks of the list were visited are
    kept, as they are, by the visit of the tasks that follow, however it
    ends. *)
Lemma all_paths_keeps_memo depth h pre post :
  (all_paths depth h pre ∅).2 ⊆ (all_paths depth h (pre ++ post) ∅).2.
Proof.
  rewrite all_paths_app.
  destruct (all_paths depth h pre ∅) as [[rs|e] memo1] eqn:Hpre; [|done].
  destruct (all_paths_run_ok _ _ _ _ _ _ (no_cyclic_empty _) Hpre)
    as (_ & Hno & _ & _).
  destruct (all_paths depth h post memo1) as [o memo2] eqn:Hpost.
  destruct (all_paths_run_ok _ _ _ _ _ _ Hno Hpost) as (Hsub & _).
  by destruct o.
Qed.

Lemma cycle_heap_cyclic : cyclic cycle_heap 0.
Proof.
  exists 0. split; [constructor|].
  eapply tc_l; [|apply tc_once].
  - exists (tache_de "A" 10 [1]). split; [reflexivity|]. cbn. by left.
  - exists (tache_de "B" 5 [0]). split; [reflexivity|]. cbn. by left.
Qed.

Lemma cycle_heap_objs t : t ∈ [0; 1] -> is_Some (cycle_heap !! t).
Proof. intros Hin. repeat (apply elem_of_cons in Hin as [->|Hin]; [by eexists|]).
       by apply elem_of_nil in Hin. Qed.

(** C3, as the code has it: when a task of the project leads to a dependency
    cycle, [calculer_chemin_critique] ends, at every recursion limit, with
    the interpreter's [RecursionError] (there is no cycle detection and no
    [CyclicDependencyError]) and leaves the project as it was; the entries
    memoized for the tasks visited earlier in the same invocation are kept
    unchanged. *)
Theorem cyclic_project_raises_RecursionError :
  forall depth s,
    heap_closed (objs s) ->
    (forall t, t ∈ Projet.taches (projet s) -> is_Some (objs s !! t)) ->
    (exists t, t ∈ Projet.taches (projet s) /\ cyclic (objs s) t) ->
    calculer_chemin_critique depth s = (Raise RecursionError, s)
    /\ forall pre post,
         Projet.taches (projet s) = pre ++ post ->
         (all_paths depth (objs s) pre ∅).2
           ⊆ (all_paths depth (objs s) (Projet.taches (projet s)) ∅).2.
Proof.
  intros depth s Hclosed Hobjs Hcyc. split.
  - by apply calculer_chemin_critique_cyclic.
  - intros pre post ->. apply all_paths_keeps_memo.
Qed.

Lemma cyclic_project_raises_RecursionError_witness :
  heap_closed cycle_heap
  /\ cyclic cycle_heap 0
  /\ calculer_chemin_critique 1000 (state_of cycle_heap [0; 1])
     = (Raise RecursionError, state_of cycle_heap [0; 1]).
Proof.
  split; [compute_done|]. split; [exact cycle_heap_cyclic|].
  apply (cyclic_project_raises_RecursionError 1000 (state_of cycle_heap [0; 1])).
  - compute_done.
  - exact cycle_heap_objs.
  - exists 0. split; [by left|exact cycle_heap_cyclic].
Defined.

(** C3 as stated fails: on the cycle A -> B -> A no recursion limit makes
    the computation end with a [CyclicDependencyError]. *)
Lemma cycle_is_not_reported_as_CyclicDependencyError :
  ~ exists depth,
      (calculer_chemin_critique depth (state_of cycle_heap [0; 1])).1
      = Raise (UserException "CyclicDependencyError").
Proof.
  intros [depth Hrun].
  rewrite calculer_chemin_critique_cyclic in Hrun; [done|..].
  - compute_done.
  - exact cycle_heap_objs.
  - exists 0. split; [by left|exact cycle_heap_cyclic].
Qed.

(** ** Dependencies that are not tasks of the project *)

Lemma calculer_chemin_critique_raises depth s e :
  heap_closed (objs s) ->
  (forall t, t ∈ Projet.taches (projet s) -> is_Some (objs s !! t)) ->
  (calculer_chemin_critique depth s).1 = Raise e ->
  e = RecursionError \/ (e = ValueError /\ Projet.taches (projet s) = []).
Proof.
  intros Hclosed Hobjs. rewrite calculer_chemin_critique_eq.
  destruct (all_paths _ _ _ _) as [[[|x l]|e'] memo] eqn:Hrun; cbn; [|done|].
  - intros [= <-]. right. split; [done|].
    destruct (Projet.taches (projet s)) as [|t ts]; [done|].
    rewrite all_paths_cons in Hrun.
    destruct (find_longest_path _ _ _ _) as [[r|e1] memo1]; [|done].
    by destruct (all_paths _ _ _ memo1) as [[rs|e2] memo2].
  - intros [= <-]. left. by eapply all_paths_raises.
Qed.

Lemma calculer_chemin_critique_returns depth s rank :
  heap_closed (objs s) -> ranked (objs s) rank ->
  Projet.taches (projet s) <> [] ->
  (forall t, t ∈ Projet.taches (projet s) ->
     is_Some (objs s !! t) /\ rank t < depth) ->
  (calculer_chemin_critique depth s).1 = Return tt.
Proof.
  intros Hclosed Hrank Hne Hobjs. rewrite calculer_chemin_critique_eq.
  destruct (all_paths_returns _ rank depth _ Hclosed Hrank Hobjs ∅)
    as (rs & memo & -> & Hlen). cbn.
  destruct rs as [|x l]; [|done].
  by destruct (Projet.taches (projet s)).
Qed.

Lemma tache_ajouter_dependance_returns tache dep s :
  is_Some (objs s !! tache) ->
  (tache_ajouter_dependance tache dep s).1 = Return tt.
Proof.
  intros [t Ht]. unfold tache_ajouter_dependance. run_monad. by rewrite Ht.
Qed.

(** C5, as the code has it: a dependency that is no task of the project is
    rejected neither when it is added nor by [calculer_chemin_critique],
    which follows it like any other dependency.  The computation raises
    nothing but [RecursionError] (and [ValueError] when the project has no
    task), and it returns whenever the dependency graph is acyclic (it has a
    rank) and the recursion limit exceeds the ranks of the project's tasks. *)
Theorem unknown_dependency_is_not_validated :
  forall depth s,
    heap_closed (objs s) ->
    (forall t, t ∈ Projet.taches (projet s) -> is_Some (objs s !! t)) ->
    (forall e, (calculer_chemin_critique depth s).1 = Raise e ->
       e = RecursionError \/ (e = ValueError /\ Projet.taches (projet s) = []))
    /\ (forall rank,
          ranked (objs s) rank -> Projet.taches (projet s) <> [] ->
          (forall t, t ∈ Projet.taches (projet s) -> rank t < depth) ->
          (calculer_chemin_critique depth s).1 = Return tt)
    /\ (forall tache dep,
          is_Some (objs s !! tache) ->
          (tache_ajouter_dependance tache dep s).1 = Return tt).
Proof.
  intros depth s Hclosed Hobjs. split_and!.
  - intros e. by apply calculer_chemin_critique_raises.
  - intros rank Hrank Hne Hlt.
    apply (calculer_chemin_critique_returns depth s rank); auto.
  - intros tache dep. apply tache_ajouter_dependance_returns.
Qed.

Lemma chain_heap_objs t : t ∈ [2] -> is_Some (chain_heap !! t).
Proof. intros ->%list_elem_of_singleton. by eexists. Qed.

Lemma unknown_dependency_is_not_validated_witness :
  heap_closed chain_heap
  /\ (1 ∉ Projet.taches (projet (state_of chain_heap [2])))
  /\ (calculer_chemin_critique 3 (state_of chain_heap [2])).1 = Return tt.
Proof.
  split; [compute_done|]. split; [compute_done|].
  destruct (unknown_dependency_is_not_validated 3 (state_of chain_heap [2]))
    as (_ & Hreturns & _).
  - compute_done.
  - exact chain_heap_objs.
  - apply (Hreturns (fun r => r)).
    + compute_done.
    + discriminate.
    + intros t ->%list_elem_of_singleton. lia.
Defined.

(** C5 as stated fails: B depends on A, which depends on X; only B is added
    to the project.  The computation returns, and the critical path stored
    on the project holds the unregistered task A. *)
Lemma unknown_dependency_not_rejected :
  Tache.dependances <$> chain_heap = {[0 := []; 1 := [0]; 2 := [1]]}
  /\ Projet.taches (projet (state_of chain_heap [2])) = [2]
  /\ (calculer_chemin_critique 3 (state_of chain_heap [2])).1 = Return tt
  /\ Projet.chemin_critique
       (projet (calculer_chemin_critique 3 (state_of chain_heap [2])).2)
     = [1; 2].
Proof. split_and!; by vm_compute. Qed.

(** ** The change log, the broadcast, the frame *)

(** C7: [enregistrer_changement] appends one [Changement] that carries the
    version of before the increment, adds 1 to the version counter, and
    notifies with the version of after the increment; from a new project,
    whatever calls are made, the versions recorded are 1, 2, ..., n with the
    counter at n + 1, and no call removes or renumbers a recorded change. *)
Theorem enregistrer_changement_versions :
  (forall description now s,
     let p := projet s in
     let changement :=
       {| Changement.description := description;
          Changement.version := Projet.version p;
          Changement.date := now |} in
     let p' :=
       Projet.set_version (Projet.version p + 1)
         (Projet.set_changements (Projet.changements p ++ [changement]) p) in
     enregistrer_changement description now s
       = notifier ("Changement enregistré: " +:+ description +:+ " (version "
                   +:+ str_int (Projet.version p + 1) +:+ ")")
           (set_projet p' s)
     /\ projet (enregistrer_changement description now s).2 = p')
  /\ (forall str_float calls nom description date_debut date_fin budget h out,
        let p := projet (run_calls str_float calls
                   {| objs := h;
                      projet := Projet.init nom description date_debut date_fin budget;
                      stdout := out |}) in
        Changement.version <$> Projet.changements p
          = seqZ 1 (Z.of_nat (length (Projet.changements p)))
        /\ Projet.version p = (1 + Z.of_nat (length (Projet.changements p)))%Z)
  /\ (forall str_float calls s,
        Projet.changements (projet s)
          `prefix_of` Projet.changements (projet (run_calls str_float calls s))).
Proof.
  split_and!.
  - intros description now s. cbn zeta.
    rewrite enregistrer_changement_eq. split; [done|apply notifier_projet].
  - intros. apply run_calls_changements_ok. by split.
  - intros. apply run_calls_changements_prefix.
Qed.

(** C8, as the code has it: the broadcast delivers the message to the
    recipients in the given order, one after the other; with each of the
    three strategies of the file no delivery fails and one line is printed
    per recipient, in order; a delivery that raises ends the broadcast at
    once with that exception, the recipients after it are not tried, and no
    failure is collected. *)
Theorem broadcast_stops_at_first_failure :
  (forall message destinataires out,
     NotificationContext.notifier
       {| NotificationContext.strategy := EmailNotificationStrategy |}
       message destinataires out
     = (Return tt,
        out ++ map (fun d => "Notification envoyée à " +:+ Membre.nom d
                             +:+ " par email: " +:+ message) destinataires)
     /\ NotificationContext.notifier
          {| NotificationContext.strategy := SMSNotificationStrategy |}
          message destinataires out
        = (Return tt,
           out ++ map (fun d => "Notification envoyée à " +:+ Membre.nom d
                                +:+ " par SMS: " +:+ message) destinataires)
     /\ NotificationContext.notifier
          {| NotificationContext.strategy := PushNotificationStrategy |}
          message destinataires out
        = (Return tt,
           out ++ map (fun d => "Notification envoyée à " +:+ Membre.nom d
                                +:+ " par Push: " +:+ message) destinataires))
  /\ (forall ctx message pre k post out,
        NotificationContext.notifier ctx message (pre ++ k :: post) out =
          match NotificationContext.notifier ctx message pre out with
          | (Return _, out1) =>
              match NotificationStrategy.envoyer_message
                      (NotificationContext.strategy ctx) message k out1 with
              | (Return _, out2) =>
                  NotificationContext.notifier ctx message post out2
              | (Raise e, out2) => (Raise e, out2)
              end
          | (Raise e, out1) => (Raise e, out1)
          end).
Proof.
  split.
  - intros message destinataires out. split_and!;
      by apply (notifier_context_print _
                  (fun m d => _ +:+ Membre.nom d +:+ _ +:+ m)).
  - intros. apply notifier_context_app.
Qed.

(** C8 as stated fails: with a strategy whose delivery to Christian raises,
    the broadcast to Modou, Christian and Awa makes two deliveries, not
    three, and ends with the exception. *)
Lemma broadcast_failure_not_collected :
  NotificationContext.notifier
    {| NotificationContext.strategy := strategie_en_panne |}
    "Bonjour" [modou; christian; awa] []
  = (Raise (UserException "DeliveryError"),
     ["tentative: Modou"; "tentative: Christian"]).
Proof. reflexivity. Qed.

(** C9, as the code has it: [calculer_chemin_critique] returns nothing and
    stores the path it computed in [self.chemin_critique]: it returns
    exactly when the visit of the tasks returns a non-empty list of pairs,
    and the field then holds the path of the pair that [max] selects.  It
    changes nothing else (not the objects of the heap, not what has been
    printed, no other field of the project), and nothing at all when it
    raises. *)
Theorem calculer_chemin_critique_assigns_only_chemin_critique :
  forall depth s,
    let s' := (calculer_chemin_critique depth s).2 in
    (s' = s \/
     exists path, s' = set_projet (Projet.set_chemin_critique path (projet s)) s)
    /\ (forall e, (calculer_chemin_critique depth s).1 = Raise e -> s' = s)
    /\ objs s' = objs s
    /\ stdout s' = stdout s
    /\ Projet.taches (projet s') = Projet.taches (projet s)
    /\ Projet.equipe (projet s') = Projet.equipe (projet s)
    /\ Projet.version (projet s') = Projet.version (projet s)
    /\ Projet.budget (projet s') = Projet.budget (projet s)
    /\ Projet.changements (projet s') = Projet.changements (projet s)
    /\ Projet.risques (projet s') = Projet.risques (projet s)
    /\ Projet.jalons (projet s') = Projet.jalons (projet s)
    /\ ((calculer_chemin_critique depth s).1 = Return tt ->
        exists x l,
          (all_paths depth (objs s) (Projet.taches (projet s)) ∅).1
            = Return (x :: l)
          /\ s' = set_projet
                    (Projet.set_chemin_critique (max_from x l).2 (projet s)) s
          /\ Projet.chemin_critique (projet s') = (max_from x l).2)
    /\ (forall x l,
          (all_paths depth (objs s) (Projet.taches (projet s)) ∅).1
            = Return (x :: l) ->
          (calculer_chemin_critique depth s).1 = Return tt
          /\ Projet.chemin_critique (projet s') = (max_from x l).2).
Proof.
  intros depth s s'. subst s'. split; [apply calculer_chemin_critique_frame|].
  rewrite calculer_chemin_critique_eq.
  destruct (all_paths _ _ _ _).1 as [[|x l]|e]; cbn; split_and!; try done.
  - intros _. by exists x, l.
  - by intros x' l' [= <- <-].
Qed.

(** C9 as stated fails: on the project of the script the computation
    changes the field [chemin_critique] of the project. *)
Lemma calculer_chemin_critique_writes_project :
  Projet.chemin_critique (projet (state_of script_heap [0; 1])) = []
  /\ Projet.chemin_critique
       (projet (calculer_chemin_critique 2 (state_of script_heap [0; 1])).2)
     = [1].
Proof. split; by vm_compute. Qed.

(** C10: when [calculer_chemin_critique] returns, every path of the memo
    dictionary it built is non-empty and ends with the task it is memoized
    for, and the critical path stored on the project is non-empty and ends
    with a task of the project. *)
Theorem memoized_paths_end_with_their_task :
  forall depth s s',
    calculer_chemin_critique depth s = (Return tt, s') ->
    (forall k len path,
       (all_paths depth (objs s) (Projet.taches (projet s)) ∅).2 !! k
         = Some (len, path) ->
       path <> [] /\ last path = Some k)
    /\ exists tache,
         tache ∈ Projet.taches (projet s)
         /\ last (Projet.chemin_critique (projet s')) = Some tache.
Proof.
  intros depth s s'. rewrite calculer_chemin_critique_eq.
  destruct (all_paths _ _ _ _) as [o memo] eqn:Hrun.
  destruct (all_paths_wf _ _ _ _ _ _ memo_wf_empty Hrun) as [Hwf Hpaths].
  destruct o as [[|x l]|e]; cbn; [done| |done]. intros [= <-]. split.
  - intros k len path Hk. specialize (Hwf _ _ Hk). cbn in Hwf.
    split; [|done]. by intros ->.
  - specialize (Hpaths _ eq_refl).
    pose proof (max_from_elem l x) as Hmax.
    apply list_elem_of_lookup in Hmax as [i Hi].
    destruct (Forall2_lookup_r _ _ _ _ _ Hpaths Hi) as (tache & Htache & Hlast).
    exists tache. split; [by eapply list_elem_of_lookup_2|done].
Qed.

Lemma memoized_paths_end_with_their_task_witness :
  exists tache,
    tache ∈ [0; 1; 2; 3]
    /\ last (Projet.chemin_critique
               (projet (calculer_chemin_critique 4
                          (state_of diamond_heap [0; 1; 2; 3])).2))
       = Some tache.
Proof.
  apply (memoized_paths_end_with_their_task 4
           (state_of diamond_heap [0; 1; 2; 3])).
  by vm_compute.
Defined.

(** ** What [max] and the loop over the dependencies select *)

Lemma max_from_ge {A} (l : list (Z * A)) : forall best,
  (best.1 <= (max_from best l).1)%Z.
Proof.
  induction l as [|x l Hind]; intros best; cbn; [lia|].
  pose proof (Hind (if (x.1 >? best.1)%Z then x else best)) as Hle.
  destruct (Z.gtb_spec x.1 best.1); lia.
Qed.

(** [max_from best l] is the first item of [best :: l] whose key is the
    greatest: the items before it have a smaller key, the items after it
    have no greater key. *)
Lemma max_from_first {A} (l : list (Z * A)) : forall best,
  exists pre post,
    best :: l = pre ++ max_from best l :: post
    /\ Forall (fun x => (x.1 < (max_from best l).1)%Z) pre
    /\ Forall (fun x => (x.1 <= (max_from best l).1)%Z) post.
Proof.
  induction l as [|x l Hind]; intros best; cbn.
  - by exists [], [].
  - destruct (Hind (if (x.1 >? best.1)%Z then x else best))
      as (pre & post & Heq & Hpre & Hpost).
    destruct (Z.gtb_spec x.1 best.1) as [Hgt|Hle].
    + exists (best :: pre), post. rewrite Heq. split_and!; [done| |done].
      constructor; [|done]. pose proof (max_from_ge l x). lia.
    + destruct pre as [|b pre]; cbn in Heq; injection Heq as Hb Hl.
      * exists [], (x :: l). split_and!.
        -- cbn. by rewrite <- Hb.
        -- constructor.
        -- rewrite Hl at 1. constructor; [rewrite <- Hb; lia|done].
      * exists (b :: x :: pre), post. split_and!.
        -- cbn. by rewrite <- Hb, <- Hl.
        -- apply Forall_cons in Hpre as [Hlt Hpre]. subst b.
           constructor; [done|]. constructor; [lia|done].
        -- done.
Qed.

(** ** The recurrence of the memo dictionary *)

Lemma all_paths_inv (I : Memo -> Prop) depth h taches :
  (forall t memo o memo',
      I memo -> find_longest_path depth h t memo = (o, memo') -> I memo') ->
  forall memo o memo',
    I memo -> all_paths depth h taches memo = (o, memo') -> I memo'.
Proof.
  intros Hfind. induction taches as [|tache taches IH]; intros memo o memo' HI Hrun.
  - cbn in Hrun. unfold ret in Hrun. by simplify_eq.
  - rewrite all_paths_cons in Hrun.
    destruct (find_longest_path _ _ _ _) as [[r|e] memo1] eqn:Hd.
    + assert (I memo1) as HI1 by (eapply Hfind; [exact HI|exact Hd]).
      destruct (all_paths _ _ _ memo1) as [[rs|e] memo2] eqn:Hrest;
        simplify_eq; (eapply IH; [exact HI1|exact Hrest]).
    + simplify_eq. eapply Hfind; [exact HI|exact Hd].
Qed.

Lemma entry_ok_mono h memo memo' k r :
  memo ⊆ memo' -> entry_ok h memo k r -> entry_ok h memo' k r.
Proof.
  intros Hsub (t & Ht & Hentry). exists t. split; [done|].
  destruct (Tache.dependances t) as [|d0 deps]; [done|].
  destruct Hentry as (ds & Hds & ->). exists ds. split; [|done].
  eapply Forall2_impl; [exact Hds|]. intros d rd Hd. cbn in *.
  eapply lookup_weaken; [exact Hd|exact Hsub].
Qed.

Lemma memo_rec_empty h : memo_rec h ∅.
Proof. intros k r Hk. by rewrite lookup_empty in Hk. Qed.

Lemma memo_rec_insert h memo k r :
  memo !! k = None -> memo_rec h memo -> entry_ok h memo k r ->
  memo_rec h (<[k := r]> memo).
Proof.
  intros Hfresh Hrec Hentry k' r'. rewrite lookup_insert. case_decide.
  - intros [= <-]. subst k'. eapply entry_ok_mono; [|done]. by apply insert_subseteq.
  - intros Hk'. eapply entry_ok_mono; [|by apply Hrec]. by apply insert_subseteq.
Qed.

(** After the loop, the accumulator is the first entry of greatest length
    among the initial one and the entries memoized for the dependencies. *)
Lemma for_dependances_results h depth deps : forall acc memo m memo1,
  no_cyclic h memo ->
  for_dependances (find_longest_path depth h) deps acc memo = (Return m, memo1) ->
  exists ds,
    Forall2 (fun d rd => memo1 !! d = Some rd) deps ds /\ m = max_from acc ds.
Proof.
  induction deps as [|d deps IH]; intros acc memo m memo1 Hno Hrun.
  - cbn in Hrun. unfold ret in Hrun. simplify_eq. by exists [].
  - rewrite for_dependances_cons in Hrun.
    destruct (find_longest_path depth h d memo) as [[r|e] memoA] eqn:Hd; [|done].
    destruct (find_longest_path_run_ok _ _ _ _ _ _ Hno Hd) as (_ & HnoA & _).
    destruct (IH _ _ _ _ HnoA Hrun) as (ds & Hds & ->).
    destruct (for_dependances_run_ok h _ deps
                (find_longest_path_run_ok h depth) _ _ _ _ HnoA Hrun)
      as (Hsub & _).
    exists (r :: ds). split; [|done]. constructor; [|done].
    eapply lookup_weaken; [|exact Hsub].
    by eapply find_longest_path_memoized.
Qed.

(** The loop over the dependencies of a task does not memoize the task. *)
Lemma for_dependances_fresh h depth tache t acc memo m memo1 :
  no_cyclic h memo -> memo !! tache = None -> h !! tache = Some t ->
  for_dependances (find_longest_path depth h) (Tache.dependances t) acc memo
    = (Return m, memo1) ->
  memo1 !! tache = None.
Proof.
  intros Hno Hfresh Ht Hrun.
  destruct (for_dependances_run_ok h _ _
              (find_longest_path_run_ok h depth) _ _ _ _ Hno Hrun)
    as (_ & Hno1 & Hnew & _).
  destruct (memo1 !! tache) as [r|] eqn:Hr; [|done].
  destruct (Hnew tache) as (d & Hin & Hreach); [by eexists|done|].
  destruct (Hno1 tache); [by eexists|].
  exists tache. split; [constructor|].
  eapply tc_rtc_r; [|exact Hreach]. apply tc_once. by exists t.
Qed.

Lemma find_longest_path_rec h depth : forall tache memo o memo',
  no_cyclic h memo /\ memo_rec h memo ->
  find_longest_path depth h tache memo = (o, memo') ->
  no_cyclic h memo' /\ memo_rec h memo'.
Proof.
  induction depth as [|depth IH]; intros tache memo o memo' [Hno Hrec] Hrun.
  { cbn in Hrun. unfold raise in Hrun. by simplify_eq. }
  split; [by destruct (find_longest_path_run_ok _ _ _ _ _ _ Hno Hrun) as (_ & ? & _)|].
  rewrite find_longest_path_S in Hrun.
  destruct (memo !! tache) as [r|] eqn:Hmemo; [by simplify_eq|].
  destruct (h !! tache) as [t|] eqn:Ht; [|by simplify_eq].
  destruct (Tache.dependances t) as [|d0 ds0] eqn:Hlist.
  { simplify_eq. apply memo_rec_insert; [done..|].
    exists t. by rewrite Hlist. }
  rewrite <- Hlist in Hrun.
  destruct (for_dependances _ _ _ _) as [[m|e] memo1] eqn:Hloop; simplify_eq.
  - destruct (for_dependances_inv (fun x => no_cyclic h x /\ memo_rec h x)
                (find_longest_path depth h) (Tache.dependances t)
                (fun d x o x' _ => IH d x o x') _ _ _ _ (conj Hno Hrec) Hloop)
      as [Hno1 Hrec1].
    apply memo_rec_insert;
      [exact (for_dependances_fresh _ _ _ _ _ _ _ _ Hno Hmemo Ht Hloop)|done|].
    exists t. split; [done|]. rewrite Hlist, <- Hlist.
    destruct (for_dependances_results _ _ _ _ _ _ _ Hno Hloop) as (ds & Hds & ->).
    by exists ds.
  - by destruct (for_dependances_inv (fun x => no_cyclic h x /\ memo_rec h x)
                   (find_longest_path depth h) (Tache.dependances t)
                   (fun d x o x' _ => IH d x o x') _ _ _ _ (conj Hno Hrec) Hloop).
Qed.

(** X2: the memo dictionary that [calculer_chemin_critique] builds obeys the
    recurrence of the algorithm, however the run ends: [(0, [task])] for a
    task without dependencies; for a task with dependencies, the span of the
    task added to the greatest length memoized for its dependencies (0 when
    none is positive), and the task added to the path of the first
    dependency, in declared order, that reaches that length (to the empty
    path when no length is positive).  Each entry is computed once, from the
    entries of the dependencies, also when the graph has diamonds. *)
Theorem memo_obeys_recurrence :
  forall depth h taches, memo_rec h (all_paths depth h taches ∅).2.
Proof.
  intros depth h taches.
  destruct (all_paths depth h taches ∅) as [o memo] eqn:Hrun.
  eapply (all_paths_inv (fun x => no_cyclic h x /\ memo_rec h x));
    [apply find_longest_path_rec| |exact Hrun].
  split; [apply no_cyclic_empty|apply memo_rec_empty].
Qed.

(** X1: when the visit of the tasks returns, the critical path stored on the
    project is the path of the first pair, in the order of the project's
    task list, whose length is the greatest. *)
Theorem critical_path_is_first_of_greatest_length :
  forall depth s x l,
    (all_paths depth (objs s) (Projet.taches (projet s)) ∅).1 = Return (x :: l) ->
    exists pre best post,
      x :: l = pre ++ best :: post
      /\ Forall (fun y => (y.1 < best.1)%Z) pre
      /\ Forall (fun y => (y.1 <= best.1)%Z) post
      /\ calculer_chemin_critique depth s
         = (Return tt,
            set_projet (Projet.set_chemin_critique best.2 (projet s)) s).
Proof.
  intros depth s x l Hrun.
  destruct (max_from_first l x) as (pre & post & Heq & Hpre & Hpost).
  exists pre, (max_from x l), post. split_and!; [done..|].
  by rewrite calculer_chemin_critique_eq, Hrun.
Qed.

Lemma critical_path_is_first_of_greatest_length_witness :
  exists pre best post,
    [(0%Z, [0]); (5%Z, [1]); (20%Z, [2]); (21%Z, [2; 3])] = pre ++ best :: post
    /\ Forall (fun y => (y.1 < best.1)%Z) pre
    /\ Forall (fun y => (y.1 <= best.1)%Z) post
    /\ calculer_chemin_critique 4 (state_of diamond_heap [0; 1; 2; 3])
       = (Return tt,
          set_projet (Projet.set_chemin_critique best.2
                        (projet (state_of diamond_heap [0; 1; 2; 3])))
            (state_of diamond_heap [0; 1; 2; 3])).
Proof.
  apply (critical_path_is_first_of_greatest_length 4
           (state_of diamond_heap [0; 1; 2; 3])).
  by vm_compute.
Defined.

(** X3: on a closed heap whose dependency graph is acyclic (it has a rank),
    [find_longest_path] returns for every task whose rank is below the
    recursion limit, from any memo dictionary, and what it returns is what
    the dictionary then holds for the task. *)
Theorem find_longest_path_terminates :
  forall h rank depth tache memo,
    heap_closed h -> ranked h rank ->
    is_Some (h !! tache) -> rank tache < depth ->
    exists r memo',
      find_longest_path depth h tache memo = (Return r, memo')
      /\ memo' !! tache = Some r.
Proof.
  intros h rank depth tache memo Hclosed Hrank Hobj Hlt.
  destruct (find_longest_path_returns h rank Hclosed Hrank depth tache memo Hobj Hlt)
    as (r & memo' & Hrun).
  exists r, memo'. split; [done|]. by eapply find_longest_path_memoized.
Qed.

Lemma find_longest_path_terminates_witness :
  exists r memo',
    find_longest_path 4 diamond_heap 3 ∅ = (Return r, memo')
    /\ memo' !! 3 = Some r.
Proof.
  apply (find_longest_path_terminates diamond_heap (fun r => r) 4 3 ∅).
  - compute_done.
  - compute_done.
  - by eexists.
  - lia.
Defined.

(** ** What the calls keep *)

Lemma notifier_objs message s : objs (notifier message s).2 = objs s.
Proof. apply notifier_frame. Qed.

(** Unfolds one call down to its last [notifier], on which the frame lemmas
    of [notifier] apply. *)
Ltac unfold_call :=
  cbn [do_call];
  unfold ajouter_membre, set_notification_strategy, ajouter_tache,
    ajouter_membre_equipe, definir_budget, ajouter_risque, ajouter_jalon,
    new_Tache, tache_ajouter_dependance, tache_mettre_a_jour_statut;
  run_monad;
  repeat match goal with
    | |- context [objs ?s !! ?r] => destruct (objs s !! r) eqn:?; cbn -[notifier]
    end;
  rewrite ?notifier_projet, ?notifier_objs; cbn -[notifier].

Lemma grows_refl p : grows p p.
Proof. by repeat split. Qed.

Lemma grows_trans p1 p2 p3 : grows p1 p2 -> grows p2 p3 -> grows p1 p3.
Proof.
  intros (?&?&?&?&?) (?&?&?&?&?). unfold grows. split_and!; by etrans.
Qed.

Lemma do_call_grows str_float c s :
  grows (projet s) (projet (do_call str_float c s).2).
Proof.
  destruct c;
    try (unfold_call; unfold grows; cbn; split_and!;
         first [done | by apply prefix_app_r]).
  cbn [do_call].
  destruct (calculer_chemin_critique_frame depth s) as [->|[path ->]];
    [apply grows_refl|by repeat split].
Qed.

Lemma run_calls_grows str_float calls : forall s,
  grows (projet s) (projet (run_calls str_float calls s)).
Proof.
  induction calls as [|c calls IH]; intros s; [apply grows_refl|].
  cbn. eapply grows_trans; [apply do_call_grows|apply IH].
Qed.

(** X4: whatever calls are made, and whether or not they raise, the task
    list, the team, the risks, the milestones and the changes of the project
    grow at their end only: nothing is removed, replaced or reordered. *)
Theorem project_lists_are_append_only :
  forall str_float calls s,
    let p := projet s in
    let p' := projet (run_calls str_float calls s) in
    Projet.taches p `prefix_of` Projet.taches p'
    /\ Equipe.membres (Projet.equipe p) `prefix_of` Equipe.membres (Projet.equipe p')
    /\ Projet.risques p `prefix_of` Projet.risques p'
    /\ Projet.jalons p `prefix_of` Projet.jalons p'
    /\ Projet.changements p `prefix_of` Projet.changements p'.
Proof. intros. apply run_calls_grows. Qed.

(** X5, as the tests [test_ajouter_membre] and [test_ajouter_tache] assert
    it: a member added by [ajouter_membre] or [ajouter_membre_equipe] is in
    the team, and a task added by [ajouter_tache] is in the task list, right
    after the call and after any calls that follow, also when the
    notification of the addition raised. *)
Theorem added_member_and_task_stay :
  forall str_float membre tache calls s,
    membre ∈ Equipe.membres (Projet.equipe (projet
               (run_calls str_float (AjouterMembre membre :: calls) s)))
    /\ membre ∈ Equipe.membres (Projet.equipe (projet
                  (run_calls str_float (AjouterMembreEquipe membre :: calls) s)))
    /\ tache ∈ Projet.taches (projet
                 (run_calls str_float (AjouterTache tache :: calls) s)).
Proof.
  intros str_float membre tache calls s. split_and!.
  - destruct (run_calls_grows str_float calls
                (do_call str_float (AjouterMembre membre) s).2) as (_ & Hpre & _).
    eapply elem_of_prefix; [|exact Hpre].
    unfold_call. apply elem_of_app. right. by left.
  - destruct (run_calls_grows str_float calls
                (do_call str_float (AjouterMembreEquipe membre) s).2) as (_ & Hpre & _).
    eapply elem_of_prefix; [|exact Hpre].
    unfold_call. apply elem_of_app. right. by left.
  - destruct (run_calls_grows str_float calls
                (do_call str_float (AjouterTache tache) s).2) as (Hpre & _).
    eapply elem_of_prefix; [|exact Hpre].
    unfold_call; apply elem_of_app; right; by left.
Qed.

(** ** What the calls keep of the tasks *)

Lemma tache_extends_refl t : tache_extends t t.
Proof. by repeat split. Qed.

Lemma tache_extends_trans t1 t2 t3 :
  tache_extends t1 t2 -> tache_extends t2 t3 -> tache_extends t1 t3.
Proof.
  intros (?&?&?&?&?&?) (?&?&?&?&?&?). unfold tache_extends.
  split_and!; try congruence. by etrans.
Qed.

Lemma do_call_keeps_taches str_float c s r t :
  objs s !! r = Some t ->
  exists t', objs (do_call str_float c s).2 !! r = Some t' /\ tache_extends t t'.
Proof.
  intros Hr.
  assert (Hsame : forall s', objs s' = objs s ->
            exists t', objs s' !! r = Some t' /\ tache_extends t t').
  { intros s' ->. exists t. split; [done|apply tache_extends_refl]. }
  destruct c; cbn [do_call];
    try (apply Hsame; unfold_call; done).
  - apply Hsame.
    by destruct (calculer_chemin_critique_frame depth s) as [->|[path ->]].
  - unfold new_Tache. run_monad.
    rewrite lookup_insert_ne; [by apply Hsame|].
    intros Heq. pose proof (is_fresh (dom (objs s))) as Hfresh.
    rewrite Heq in Hfresh. apply Hfresh. apply elem_of_dom. by eexists.
  - unfold tache_ajouter_dependance. run_monad.
    destruct (objs s !! tache) as [t0|] eqn:Ht0; cbn; [|by apply Hsame].
    rewrite lookup_insert. case_decide; [|by apply Hsame].
    subst. simplify_eq. eexists. split; [done|].
    unfold tache_extends. cbn. split_and!; try done. by apply prefix_app_r.
  - unfold tache_mettre_a_jour_statut. run_monad.
    destruct (objs s !! tache) as [t0|] eqn:Ht0; cbn; [|by apply Hsame].
    rewrite lookup_insert. case_decide; [|by apply Hsame].
    subst. simplify_eq. eexists. split; [done|]. by repeat split.
Qed.

(** X6: a [Tache] object is never deleted and, whatever calls are made, keeps
    its name, its description, its two dates and its responsable; its list
    of dependencies grows at its end only.  Only the status can change. *)
Theorem tasks_are_kept :
  forall str_float calls s r t,
    objs s !! r = Some t ->
    exists t',
      objs (run_calls str_float calls s) !! r = Some t'
      /\ Tache.nom t' = Tache.nom t
      /\ Tache.description t' = Tache.description t
      /\ Tache.date_debut t' = Tache.date_debut t
      /\ Tache.date_fin t' = Tache.date_fin t
      /\ Tache.responsable t' = Tache.responsable t
      /\ Tache.dependances t `prefix_of` Tache.dependances t'.
Proof.
  intros str_float calls. induction calls as [|c calls IH]; intros s r t Hr.
  - exists t. split; [done|]. by repeat split.
  - destruct (do_call_keeps_taches str_float c s r t Hr) as (t1 & Hr1 & Hext1).
    destruct (IH _ r t1 Hr1) as (t' & Hr' & Hext').
    exists t'. split; [exact Hr'|].
    exact (tache_extends_trans _ _ _ Hext1 Hext').
Qed.

Lemma tasks_are_kept_witness :
  exists t',
    objs (run_calls (fun _ => "0.0")
            [TacheMettreAJourStatut 1 "En cours"; TacheAjouterDependance 1 1;
             NewTache tache1; CalculerCheminCritique 5]
            (state_of script_heap [0; 1])) !! 1 = Some t'
    /\ Tache.nom t' = Tache.nom tache2
    /\ Tache.description t' = Tache.description tache2
    /\ Tache.date_debut t' = Tache.date_debut tache2
    /\ Tache.date_fin t' = Tache.date_fin tache2
    /\ Tache.responsable t' = Tache.responsable tache2
    /\ Tache.dependances tache2 `prefix_of` Tache.dependances t'.
Proof.
  apply (tasks_are_kept (fun _ => "0.0")
           [TacheMettreAJourStatut 1 "En cours"; TacheAjouterDependance 1 1;
            NewTache tache1; CalculerCheminCritique 5]
           (state_of script_heap [0; 1]) 1 tache2).
  reflexivity.
Defined.

(** ** Notifications of the calls *)

Lemma notifier_None message s :
  Projet.notification_context (projet s) = None ->
  notifier message s = (Return tt, s).
Proof. intros Hnone. unfold notifier, bind, get, ret. by rewrite Hnone. Qed.

Lemma do_call_silent str_float c s :
  Projet.notification_context (projet s) = None -> sets_strategy c = false ->
  stdout (do_call str_float c s).2 = stdout s
  /\ Projet.notification_context (projet (do_call str_float c s).2) = None.
Proof.
  intros Hnone Hc. destruct c; try discriminate Hc; cbn [do_call].
  - unfold ajouter_membre. run_monad. by rewrite notifier_None.
  - unfold ajouter_tache. run_monad.
    destruct (objs s !! tache); cbn -[notifier]; [|done]. by rewrite notifier_None.
  - unfold ajouter_membre_equipe. run_monad. by rewrite notifier_None.
  - unfold definir_budget. run_monad. by rewrite notifier_None.
  - unfold ajouter_risque. run_monad. by rewrite notifier_None.
  - unfold ajouter_jalon. run_monad. by rewrite notifier_None.
  - rewrite enregistrer_changement_eq. by rewrite notifier_None.
  - by destruct (calculer_chemin_critique_frame depth s) as [->|[path ->]].
  - unfold new_Tache. by run_monad.
  - unfold tache_ajouter_dependance. run_monad. by destruct (objs s !! tache).
  - unfold tache_mettre_a_jour_statut. run_monad. by destruct (objs s !! tache).
Qed.

(** X7: as long as no notification strategy has been set, no call prints
    anything: the notifications of the mutating methods are dropped, and the
    project stays without a strategy. *)
Theorem no_strategy_no_output :
  forall str_float calls s,
    Projet.notification_context (projet s) = None ->
    forallb (fun c => negb (sets_strategy c)) calls = true ->
    stdout (run_calls str_float calls s) = stdout s
    /\ Projet.notification_context (projet (run_calls str_float calls s)) = None.
Proof.
  intros str_float calls. induction calls as [|c calls IH]; intros s Hnone Hcalls.
  - done.
  - cbn in Hcalls. apply andb_prop in Hcalls as [Hc Hcalls].
    apply negb_true_iff in Hc.
    destruct (do_call_silent str_float c s Hnone Hc) as [Hout Hnone'].
    destruct (IH _ Hnone' Hcalls) as [Hout' Hnone''].
    change (run_calls str_float (c :: calls) s)
      with (run_calls str_float calls (do_call str_float c s).2).
    split; [by rewrite Hout'|done].
Qed.

Lemma no_strategy_no_output_witness :
  stdout (run_calls (fun _ => "50000.0")
            [AjouterMembreEquipe modou; AjouterTache 0; DefinirBudget (S754_zero false);
             EnregistrerChangement "Changement de la portée du projet"
               (Datetime.date 2024 1 1);
             CalculerCheminCritique 5]
            (state_of script_heap [])) = [].
Proof.
  apply (no_strategy_no_output (fun _ => "50000.0")
           [AjouterMembreEquipe modou; AjouterTache 0; DefinirBudget (S754_zero false);
            EnregistrerChangement "Changement de la portée du projet"
              (Datetime.date 2024 1 1);
            CalculerCheminCritique 5]
           (state_of script_heap [])); reflexivity.
Defined.

Lemma notifier_prints ctx line message s :
  Projet.notification_context (projet s) = Some ctx ->
  prints (NotificationContext.strategy ctx) line ->
  notifier message s
  = (Return tt,
     set_stdout (stdout s ++ map (line message)
                               (Equipe.membres (Projet.equipe (projet s)))) s).
Proof.
  intros Hctx Hprints. unfold notifier, bind, get, on_stdout. rewrite Hctx.
  by rewrite (notifier_context_print ctx line message Hprints).
Qed.

(** X8: on a project whose strategy prints one line per delivery (as the
    three strategies of the file do), every mutating method returns and
    prints one line per member of the team as it is after the call, in the
    order of the team, all with the same message; a member being added gets
    the notification of his or her own addition, last. *)
Theorem mutating_call_notifies_whole_team :
  forall str_float c s ctx line,
    Projet.notification_context (projet s) = Some ctx ->
    prints (NotificationContext.strategy ctx) line ->
    notifying c = true ->
    (forall r, c = AjouterTache r -> is_Some (objs s !! r)) ->
    exists message,
      (do_call str_float c s).1 = Return tt
      /\ stdout (do_call str_float c s).2
         = stdout s ++ map (line message)
             (Equipe.membres (Projet.equipe (projet (do_call str_float c s).2))).
Proof.
  intros str_float c s ctx line Hctx Hprints Hc Hobj.
  destruct c; try discriminate Hc; cbn [do_call].
  - unfold ajouter_membre. run_monad. eexists.
    erewrite notifier_prints; [|exact Hctx|exact Hprints]. done.
  - destruct (Hobj tache eq_refl) as [t Ht].
    unfold ajouter_tache. run_monad. rewrite Ht. cbn -[notifier]. eexists.
    erewrite notifier_prints; [|exact Hctx|exact Hprints]. done.
  - unfold ajouter_membre_equipe. run_monad. eexists.
    erewrite notifier_prints; [|exact Hctx|exact Hprints]. done.
  - unfold definir_budget. run_monad. eexists.
    erewrite notifier_prints; [|exact Hctx|exact Hprints]. done.
  - unfold ajouter_risque. run_monad. eexists.
    erewrite notifier_prints; [|exact Hctx|exact Hprints]. done.
  - unfold ajouter_jalon. run_monad. eexists.
    erewrite notifier_prints; [|exact Hctx|exact Hprints]. done.
  - rewrite enregistrer_changement_eq. eexists.
    erewrite notifier_prints; [|exact Hctx|exact Hprints]. done.
Qed.

Lemma EmailNotificationStrategy_prints :
  prints EmailNotificationStrategy
    (fun message d => "Notification envoyée à " +:+ Membre.nom d
                      +:+ " par email: " +:+ message).
Proof. by intros message d. Qed.

Lemma mutating_call_notifies_whole_team_witness :
  exists message,
    (ajouter_membre_equipe christian state_email).1 = Return tt
    /\ stdout (ajouter_membre_equipe christian state_email).2
       = [] ++ map (fun d => "Notification envoyée à " +:+ Membre.nom d
                             +:+ " par email: " +:+ message)
                 [modou; christian].
Proof.
  apply (mutating_call_notifies_whole_team (fun _ => "0.0")
           (AjouterMembreEquipe christian) state_email
           {| NotificationContext.strategy := EmailNotificationStrategy |}
           _ eq_refl EmailNotificationStrategy_prints eq_refl).
  intros r Hr. discriminate Hr.
Defined.

(** ** Consequences of the recurrence *)

Lemma all_paths_memo_rec h depth taches :
  no_cyclic h (all_paths depth h taches ∅).2
  /\ memo_rec h (all_paths depth h taches ∅).2.
Proof.
  destruct (all_paths depth h taches ∅) as [o memo] eqn:Hrun.
  eapply (all_paths_inv (fun x => no_cyclic h x /\ memo_rec h x));
    [apply find_longest_path_rec| |exact Hrun].
  split; [apply no_cyclic_empty|apply memo_rec_empty].
Qed.

Lemma Forall2_functional {A B} (P1 P2 : A -> B -> Prop) (l : list A) :
  (forall a b1 b2, a ∈ l -> P1 a b1 -> P2 a b2 -> b1 = b2) ->
  forall l1 l2, Forall2 P1 l l1 -> Forall2 P2 l l2 -> l1 = l2.
Proof.
  induction l as [|a l IH]; intros Hfun l1 l2 H1 H2.
  - apply Forall2_nil_inv_l in H1, H2. by subst.
  - apply Forall2_cons_inv_l in H1 as (b1 & l1' & Hb1 & H1 & ->).
    apply Forall2_cons_inv_l in H2 as (b2 & l2' & Hb2 & H2 & ->).
    f_equal.
    + eapply Hfun; [by left|done..].
    + apply IH; [|done..]. intros a' b b' Hin. apply Hfun. by right.
Qed.

(** On an acyclic graph two dictionaries that obey the recurrence agree on
    the tasks they both hold. *)
Lemma memo_rec_unique h rank m1 m2 :
  ranked h rank -> memo_rec h m1 -> memo_rec h m2 ->
  forall n k r1 r2,
    rank k < n -> m1 !! k = Some r1 -> m2 !! k = Some r2 -> r1 = r2.
Proof.
  intros Hrank Hrec1 Hrec2. induction n as [|n IH]; intros k r1 r2 Hlt Hk1 Hk2; [lia|].
  destruct (Hrec1 _ _ Hk1) as (t & Ht & Hentry1).
  destruct (Hrec2 _ _ Hk2) as (t' & Ht' & Hentry2). simplify_eq.
  destruct (Tache.dependances t) as [|d0 ds0] eqn:Hlist; [by subst|].
  rewrite <- Hlist in *.
  destruct Hentry1 as (ds1 & Hds1 & ->). destruct Hentry2 as (ds2 & Hds2 & ->).
  assert (ds1 = ds2) as ->; [|done].
  eapply Forall2_functional; [|exact Hds1|exact Hds2].
  intros d rd1 rd2 Hin. cbn. apply IH.
  assert (rank d < rank k); [|lia]. apply Hrank. by exists t.
Qed.

(** X9: on an acyclic graph the pair memoized for a task depends neither on
    the order in which the tasks of the project are visited nor on the
    recursion limit: two runs that both memoize the task memoize the same
    length and the same path. *)
Theorem memoized_pair_is_independent_of_visit_order :
  forall h rank depth1 depth2 taches1 taches2 k r1 r2,
    ranked h rank ->
    (all_paths depth1 h taches1 ∅).2 !! k = Some r1 ->
    (all_paths depth2 h taches2 ∅).2 !! k = Some r2 ->
    r1 = r2.
Proof.
  intros h rank depth1 depth2 taches1 taches2 k r1 r2 Hrank Hk1 Hk2.
  eapply (memo_rec_unique h rank _ _ Hrank); [| |constructor|exact Hk1|exact Hk2].
  - apply all_paths_memo_rec.
  - apply all_paths_memo_rec.
Qed.

Lemma memoized_pair_is_independent_of_visit_order_witness :
  (all_paths 4 diamond_heap [0; 1; 2; 3] ∅).2 !! 3
  = (all_paths 7 diamond_heap [3; 1] ∅).2 !! 3.
Proof.
  destruct ((all_paths 4 diamond_heap [0; 1; 2; 3] ∅).2 !! 3) as [r1|] eqn:H1;
    [|discriminate H1].
  destruct ((all_paths 7 diamond_heap [3; 1] ∅).2 !! 3) as [r2|] eqn:H2;
    [|discriminate H2].
  f_equal.
  apply (memoized_pair_is_independent_of_visit_order diamond_heap (fun r => r)
           4 7 [0; 1; 2; 3] [3; 1] 3 r1 r2); [compute_done|exact H1|exact H2].
Defined.

Lemma is_chain_snoc h path d k :
  is_chain h path -> last path = Some d -> edge h k d -> is_chain h (path ++ [k]).
Proof.
  intros Hchain Hlast Hedge. induction path as [|a path IH]; [done|].
  destruct path as [|b path].
  - cbn in Hlast. simplify_eq. cbn. done.
  - destruct Hchain as [Hab Hchain]. split; [done|]. apply IH; [done|].
    by rewrite last_cons_cons in Hlast.
Qed.

Lemma sum_spans_snoc h path k :
  foldr Z.add 0%Z (counted_span h <$> (path ++ [k]))
  = (foldr Z.add 0%Z (counted_span h <$> path) + counted_span h k)%Z.
Proof. induction path as [|a path IH]; cbn; [lia|]. rewrite IH. lia. Qed.

(** In a dictionary that obeys the recurrence, every path is a chain of
    dependencies that ends with its task, and every length is the sum of
    the spans of the tasks of the path that have dependencies. *)
Lemma memo_rec_paths h memo :
  memo_rec h memo ->
  forall n k r,
    length r.2 <= n -> memo !! k = Some r ->
    is_chain h r.2 /\ last r.2 = Some k
    /\ r.1 = foldr Z.add 0%Z (counted_span h <$> r.2).
Proof.
  intros Hrec. induction n as [|n IH]; intros k r Hlen Hk;
    destruct (Hrec _ _ Hk) as (t & Ht & Hentry);
    destruct (Tache.dependances t) as [|d0 ds0] eqn:Hlist.
  - subst r. cbn in Hlen. lia.
  - destruct Hentry as (ds & _ & ->). cbn in Hlen. rewrite length_app in Hlen.
    cbn in Hlen. lia.
  - subst r. cbn. unfold counted_span. by rewrite Ht, Hlist.
  - rewrite <- Hlist in Hentry. destruct Hentry as (ds & Hds & ->).
    assert (Hk_span : counted_span h k = Tache.span t).
    { unfold counted_span. by rewrite Ht, Hlist. }
    pose proof (max_from_elem ds (0%Z, [])) as Hmax.
    apply elem_of_cons in Hmax as [Hzero|Hin].
    + rewrite Hzero. cbn. rewrite Hk_span. split_and!; [done|done|lia].
    + apply list_elem_of_lookup in Hin as [i Hi].
      destruct (Forall2_lookup_r _ _ _ _ _ Hds Hi) as (d & Hd & Hmemo).
      cbn in Hmemo. cbn [fst snd] in *.
      destruct (IH d (max_from (0%Z, []) ds)) as (Hchain & Hlast & Hsum);
        [rewrite length_app in Hlen; cbn in Hlen; lia|done|].
      split_and!.
      * eapply is_chain_snoc; [done..|]. exists t. split; [done|].
        by eapply list_elem_of_lookup_2.
      * apply last_snoc.
      * rewrite sum_spans_snoc, Hk_span, <- Hsum. done.
Qed.

Lemma all_paths_results h depth taches : forall memo rs memo',
  no_cyclic h memo ->
  all_paths depth h taches memo = (Return rs, memo') ->
  Forall2 (fun t r => memo' !! t = Some r) taches rs.
Proof.
  induction taches as [|tache taches IH]; intros memo rs memo' Hno Hrun.
  - cbn in Hrun. unfold ret in Hrun. simplify_eq. constructor.
  - rewrite all_paths_cons in Hrun.
    destruct (find_longest_path _ _ _ _) as [[r|e] memo1] eqn:Hfind; [|done].
    destruct (find_longest_path_run_ok _ _ _ _ _ _ Hno Hfind) as (_ & Hno1 & _).
    destruct (all_paths _ _ _ memo1) as [[rs1|e] memo2] eqn:Hrest; simplify_eq.
    destruct (all_paths_run_ok _ _ _ _ _ _ Hno1 Hrest) as (Hsub & _).
    constructor; [|by eapply IH].
    eapply lookup_weaken; [|exact Hsub]. by eapply find_longest_path_memoized.
Qed.

(** X10: when [calculer_chemin_critique] returns, the critical path it
    stores is a chain of dependencies (every task of the path lists the task
    before it among its dependencies), and so is every memoized path; the
    length memoized with a path is the sum of the spans of those of its
    tasks that have dependencies (a task without dependencies adds 0). *)
Theorem critical_path_is_a_dependency_chain :
  forall depth s s',
    calculer_chemin_critique depth s = (Return tt, s') ->
    is_chain (objs s) (Projet.chemin_critique (projet s'))
    /\ forall k len path,
         (all_paths depth (objs s) (Projet.taches (projet s)) ∅).2 !! k
           = Some (len, path) ->
         is_chain (objs s) path
         /\ len = foldr Z.add 0%Z (counted_span (objs s) <$> path).
Proof.
  intros depth s s'. rewrite calculer_chemin_critique_eq.
  pose proof (all_paths_memo_rec (objs s) depth (Projet.taches (projet s)))
    as [_ Hrec].
  destruct (all_paths _ _ _ _) as [o memo] eqn:Hrun. cbn [fst snd] in *.
  destruct o as [[|x l]|e]; [done| |done]. intros [= <-]. cbn. split.
  - pose proof (all_paths_results _ _ _ _ _ _ (no_cyclic_empty _) Hrun) as Hrs.
    pose proof (max_from_elem l x) as Hmax.
    apply list_elem_of_lookup in Hmax as [i Hi].
    destruct (Forall2_lookup_r _ _ _ _ _ Hrs Hi) as (t & _ & Hmemo).
    by destruct (memo_rec_paths _ _ Hrec _ _ _ (Nat.le_refl _) Hmemo) as (? & _).
  - intros k len path Hk.
    by destruct (memo_rec_paths _ _ Hrec _ _ _ (Nat.le_refl _) Hk) as (? & _ & ?).
Qed.

Lemma critical_path_is_a_dependency_chain_witness :
  is_chain chain_heap
    (Projet.chemin_critique
       (projet (calculer_chemin_critique 3 (state_of chain_heap [2])).2)).
Proof.
  apply (critical_path_is_a_dependency_chain 3 (state_of chain_heap [2])).
  by vm_compute.
Defined.

(** ** What the critical path depends on *)

Lemma for_dependances_ext rec rec' deps :
  (forall d memo, rec d memo = rec' d memo) ->
  forall acc memo,
    for_dependances rec deps acc memo = for_dependances rec' deps acc memo.
Proof.
  intros Hext. induction deps as [|d deps IH]; intros acc memo; [done|].
  rewrite !for_dependances_cons, Hext.
  destruct (rec' d memo) as [[r|e] memo1]; [apply IH|done].
Qed.

Lemma find_longest_path_same_graph h h' :
  same_graph h h' ->
  forall depth tache memo,
    find_longest_path depth h tache memo = find_longest_path depth h' tache memo.
Proof.
  intros Hsame. induction depth as [|depth IH]; intros tache memo; [done|].
  rewrite !find_longest_path_S.
  destruct (memo !! tache) as [r|]; [done|].
  specialize (Hsame tache).
  destruct (h !! tache) as [t|], (h' !! tache) as [t'|]; cbn in Hsame;
    try discriminate Hsame; [|done].
  injection Hsame as Hdeps Hspan. rewrite Hdeps, Hspan.
  destruct (Tache.dependances t') as [|d0 ds0]; [done|].
  by rewrite (for_dependances_ext _ _ _ (IH)).
Qed.

Lemma all_paths_same_graph h h' depth taches :
  same_graph h h' ->
  forall memo, all_paths depth h taches memo = all_paths depth h' taches memo.
Proof.
  intros Hsame. induction taches as [|tache taches IH]; intros memo; [done|].
  rewrite !all_paths_cons, (find_longest_path_same_graph h h' Hsame).
  destruct (find_longest_path _ _ _ _) as [[r|e] memo1]; [|done].
  by rewrite IH.
Qed.

Lemma same_graph_statut h r t st :
  h !! r = Some t -> same_graph h (<[r := Tache.mettre_a_jour_statut st t]> h).
Proof.
  intros Hr r'. rewrite lookup_insert. case_decide; [|done].
  subst. by rewrite Hr.
Qed.

Lemma same_graph_refl h : same_graph h h.
Proof. by intros r. Qed.

Lemma same_graph_trans h1 h2 h3 :
  same_graph h1 h2 -> same_graph h2 h3 -> same_graph h1 h3.
Proof. intros H12 H23 r. by rewrite H12. Qed.

Lemma do_call_same_graph str_float c s :
  touches_graph c = false ->
  same_graph (objs s) (objs (do_call str_float c s).2)
  /\ Projet.taches (projet (do_call str_float c s).2) = Projet.taches (projet s).
Proof.
  intros Hc. destruct c; try discriminate Hc; cbn [do_call].
  - unfold ajouter_membre. run_monad.
    rewrite notifier_objs, notifier_projet. split; [apply same_graph_refl|done].
  - unfold set_notification_strategy. run_monad. split; [apply same_graph_refl|done].
  - unfold ajouter_membre_equipe. run_monad.
    rewrite notifier_objs, notifier_projet. split; [apply same_graph_refl|done].
  - unfold definir_budget. run_monad.
    rewrite notifier_objs, notifier_projet. split; [apply same_graph_refl|done].
  - unfold ajouter_risque. run_monad.
    rewrite notifier_objs, notifier_projet. split; [apply same_graph_refl|done].
  - unfold ajouter_jalon. run_monad.
    rewrite notifier_objs, notifier_projet. split; [apply same_graph_refl|done].
  - rewrite enregistrer_changement_eq, notifier_objs, notifier_projet.
    split; [apply same_graph_refl|done].
  - destruct (calculer_chemin_critique_frame depth s) as [->|[path ->]];
      (split; [apply same_graph_refl|done]).
  - unfold tache_mettre_a_jour_statut. run_monad.
    destruct (objs s !! tache) as [t|] eqn:Ht; cbn;
      (split; [|done]); [by apply same_graph_statut|apply same_graph_refl].
Qed.

Lemma run_calls_same_graph str_float calls : forall s,
  forallb (fun c => negb (touches_graph c)) calls = true ->
  same_graph (objs s) (objs (run_calls str_float calls s))
  /\ Projet.taches (projet (run_calls str_float calls s)) = Projet.taches (projet s).
Proof.
  induction calls as [|c calls IH]; intros s Hcalls.
  - split; [apply same_graph_refl|done].
  - cbn in Hcalls. apply andb_prop in Hcalls as [Hc Hcalls].
    apply negb_true_iff in Hc.
    destruct (do_call_same_graph str_float c s Hc) as [Hg Ht].
    destruct (IH (do_call str_float c s).2 Hcalls) as [Hg' Ht'].
    change (run_calls str_float (c :: calls) s)
      with (run_calls str_float calls (do_call str_float c s).2).
    split; [by eapply same_graph_trans|by rewrite Ht'].
Qed.

(** X11: the critical path depends only on the task list of the project and
    on the dependencies and dates of the tasks.  After any calls other than
    [ajouter_tache], the creation of a task and [ajouter_dependance] (that
    is: after changes of the team, the budget, the risks, the milestones,
    the change log, the strategy, the status of tasks, or an earlier
    computation), [calculer_chemin_critique] ends the same way as before the
    calls and, when it returns, stores the same path. *)
Theorem critical_path_depends_only_on_the_tasks :
  forall str_float depth calls s,
    forallb (fun c => negb (touches_graph c)) calls = true ->
    let s1 := run_calls str_float calls s in
    (calculer_chemin_critique depth s1).1 = (calculer_chemin_critique depth s).1
    /\ ((calculer_chemin_critique depth s).1 = Return tt ->
        Projet.chemin_critique (projet (calculer_chemin_critique depth s1).2)
        = Projet.chemin_critique (projet (calculer_chemin_critique depth s).2)).
Proof.
  intros str_float depth calls s Hcalls s1.
  destruct (run_calls_same_graph str_float calls s Hcalls) as [Hg Ht].
  fold s1 in Hg, Ht. rewrite !calculer_chemin_critique_eq, Ht.
  rewrite <- (all_paths_same_graph _ _ depth _ Hg).
  by destruct (all_paths _ _ _ _).1 as [[|x l]|e].
Qed.

Lemma critical_path_depends_only_on_the_tasks_witness :
  Projet.chemin_critique
    (projet (calculer_chemin_critique 4
       (run_calls (fun _ => "0.0")
          [AjouterMembreEquipe modou; TacheMettreAJourStatut 3 "Terminée";
           CalculerCheminCritique 1; DefinirBudget (S754_zero false)]
          (state_of diamond_heap [0; 1; 2; 3]))).2)
  = Projet.chemin_critique
      (projet (calculer_chemin_critique 4 (state_of diamond_heap [0; 1; 2; 3])).2).
Proof.
  apply (critical_path_depends_only_on_the_tasks (fun _ => "0.0") 4
           [AjouterMembreEquipe modou; TacheMettreAJourStatut 3 "Terminée";
            CalculerCheminCritique 1; DefinirBudget (S754_zero false)]
           (state_of diamond_heap [0; 1; 2; 3])).
  - reflexivity.
  - by vm_compute.
Defined.

(** ** Dependencies that close a cycle *)

Lemma edge_ajouter_dependance h tache t dep a b :
  h !! tache = Some t ->
  edge h a b -> edge (<[tache := Tache.ajouter_dependance dep t]> h) a b.
Proof.
  intros Ht (ta & Ha & Hb). unfold edge. rewrite lookup_insert. case_decide.
  - subst. simplify_eq. eexists. split; [done|]. cbn. apply elem_of_app. by left.
  - by exists ta.
Qed.

Lemma heap_closed_ajouter_dependance h tache t dep :
  heap_closed h -> h !! tache = Some t -> is_Some (h !! dep) ->
  heap_closed (<[tache := Tache.ajouter_dependance dep t]> h).
Proof.
  intros Hclosed Ht Hdep r tr d Hr Hd.
  assert (Hin : is_Some (h !! d)).
  { rewrite lookup_insert in Hr. case_decide.
    - subst. simplify_eq. cbn in Hd.
      apply elem_of_app in Hd as [Hd|Hd]; [by eapply Hclosed|].
      apply list_elem_of_singleton in Hd as ->. done.
    - by eapply Hclosed. }
  rewrite lookup_insert. case_decide; [by eexists|done].
Qed.

(** X12: [ajouter_dependance] accepts a dependency that closes a cycle (the
    task itself, or a task that leads back to it); once it is added to a
    task of the project, [calculer_chemin_critique] ends with
    [RecursionError] at every recursion limit. *)
Theorem dependency_closing_a_cycle_breaks_the_computation :
  forall depth tache dep s,
    heap_closed (objs s) ->
    (forall t, t ∈ Projet.taches (projet s) -> is_Some (objs s !! t)) ->
    tache ∈ Projet.taches (projet s) ->
    rtc (edge (objs s)) dep tache ->
    let s1 := (tache_ajouter_dependance tache dep s).2 in
    (tache_ajouter_dependance tache dep s).1 = Return tt
    /\ calculer_chemin_critique depth s1 = (Raise RecursionError, s1).
Proof.
  intros depth tache dep s Hclosed Hobjs Hin Hback s1.
  destruct (Hobjs _ Hin) as [t Ht].
  assert (Hdep : is_Some (objs s !! dep)).
  { destruct Hback as [|? d ? (td & Htd & _) _]; by eexists. }
  assert (Hs1 : (tache_ajouter_dependance tache dep s).1 = Return tt
                /\ s1 = set_objs (<[tache := Tache.ajouter_dependance dep t]> (objs s)) s).
  { unfold s1, tache_ajouter_dependance. run_monad. by rewrite Ht. }
  destruct Hs1 as [Hret ->]. split; [done|].
  apply calculer_chemin_critique_cyclic; cbn.
  - by apply heap_closed_ajouter_dependance.
  - intros r Hr. rewrite lookup_insert. case_decide; [by eexists|by apply Hobjs].
  - exists tache. split; [done|]. exists tache. split; [constructor|].
    eapply tc_rtc_r.
    + apply tc_once. exists (Tache.ajouter_dependance dep t).
      split; [apply lookup_insert_eq|]. cbn. apply elem_of_app. right. by left.
    + eapply rtc_subrel; [|exact Hback].
      intros a b. by apply edge_ajouter_dependance.
Qed.

Lemma dependency_closing_a_cycle_breaks_the_computation_witness :
  (tache_ajouter_dependance 0 1 (state_of script_heap [0; 1])).1 = Return tt
  /\ calculer_chemin_critique 1000
       (tache_ajouter_dependance 0 1 (state_of script_heap [0; 1])).2
     = (Raise RecursionError,
        (tache_ajouter_dependance 0 1 (state_of script_heap [0; 1])).2).
Proof.
  apply (dependency_closing_a_cycle_breaks_the_computation 1000 0 1
           (state_of script_heap [0; 1])).
  - compute_done.
  - intros t Ht. repeat (apply elem_of_cons in Ht as [->|Ht]; [by eexists|]).
    by apply elem_of_nil in Ht.
  - by left.
  - apply rtc_once. exists tache2. split; [reflexivity|]. by left.
Defined.

(** ** The report *)

Lemma string_app_assoc (a b c : string) : (a +:+ b) +:+ c = a +:+ (b +:+ c).
Proof.
  induction a as [|x a IH]; [done|].
  change (String x ((a +:+ b) +:+ c) = String x (a +:+ (b +:+ c))).
  by rewrite IH.
Qed.

Lemma string_app_nil_r (a : string) : a +:+ "" = a.
Proof.
  induction a as [|x a IH]; [done|].
  change (String x (a +:+ "") = String x a). by rewrite IH.
Qed.

Lemma contains_refl s : contains s s.
Proof. exists "", "". cbn. by rewrite string_app_nil_r. Qed.

Lemma contains_app_l sub a b : contains sub a -> contains sub (a +:+ b).
Proof.
  intros (pre & post & ->). exists pre, (post +:+ b).
  by rewrite !string_app_assoc.
Qed.

Lemma contains_app_r sub a b : contains sub b -> contains sub (a +:+ b).
Proof.
  intros (pre & post & ->). exists (a +:+ pre), post.
  by rewrite !string_app_assoc.
Qed.

Lemma contains_trans a b c : contains a b -> contains b c -> contains a c.
Proof.
  intros Hab (pre & post & ->). by apply contains_app_r, contains_app_l.
Qed.

Lemma ajouter_lignes_eq {A} (ligne : A -> string) xs : forall rapport,
  ajouter_lignes ligne xs rapport = rapport +:+ lignes ligne xs.
Proof.
  induction xs as [|x xs IH]; intros rapport; cbn.
  - by rewrite string_app_nil_r.
  - unfold ajouter_lignes in IH. by rewrite IH, string_app_assoc.
Qed.

Lemma lignes_contains {A} (ligne : A -> string) xs x :
  x ∈ xs -> contains (ligne x) (lignes ligne xs).
Proof.
  induction xs as [|y xs IH]; intros Hin; [by apply elem_of_nil in Hin|].
  cbn. apply elem_of_cons in Hin as [->|Hin].
  - apply contains_app_l, contains_refl.
  - by apply contains_app_r, IH.
Qed.

(** The loop over [Tache] objects, when every reference designates one:
    the lines of the objects are added, and the state is kept. *)
Lemma ajouter_lignes_taches_eq ligne s taches :
  (forall r, r ∈ taches -> is_Some (objs s !! r)) ->
  exists ts,
    Forall2 (fun r t => objs s !! r = Some t) taches ts
    /\ forall rapport,
         ajouter_lignes_taches ligne taches rapport s
         = (Return (rapport +:+ lignes ligne ts), s).
Proof.
  induction taches as [|r taches IH]; intros Hobjs.
  - exists []. split; [constructor|]. intros rapport. cbn.
    by rewrite string_app_nil_r.
  - destruct (Hobjs r) as [t Ht]; [by left|].
    destruct IH as (ts & Hts & Hrun); [intros r' Hr'; apply Hobjs; by right|].
    exists (t :: ts). split; [by constructor|]. intros rapport.
    cbn [ajouter_lignes_taches]. unfold bind, get, deref. rewrite Ht.
    unfold ret at 1. rewrite Hrun. cbn. by rewrite string_app_assoc.
Qed.

Lemma Forall2_objs_elem (h : heap) taches ts r t :
  Forall2 (fun r t => h !! r = Some t) taches ts ->
  r ∈ taches -> h !! r = Some t -> t ∈ ts.
Proof.
  intros Hts [i Hi]%list_elem_of_lookup Hr.
  destruct (Forall2_lookup_l _ _ _ _ _ Hts Hi) as (t' & Ht' & Hr').
  cbn in Hr'. simplify_eq. by eapply list_elem_of_lookup_2.
Qed.

(** Finds the lines of a list in a report built by successive [+:+]. *)
Ltac find_lines :=
  first [ by apply contains_app_r, lignes_contains
        | apply contains_app_l; find_lines ].

(** X13: when every task of the project and of its critical path is an
    object of the heap, [generer_rapport] returns a text, changes nothing,
    and the text starts with the title line of the project and contains the
    line of every member of the team, of every task, of every milestone, of
    every risk and of every task of the critical path; in particular it
    contains the name of every member and of every task, as the test
    [test_generer_rapport_performance] asserts of the members and tasks it
    added. *)
Theorem generer_rapport_lists_everything :
  forall str_float str_datetime s,
    (forall r,
       r ∈ Projet.taches (projet s) ++ Projet.chemin_critique (projet s) ->
       is_Some (objs s !! r)) ->
    exists rapport,
      generer_rapport str_float str_datetime s = (Return rapport, s)
      /\ (exists rest,
            rapport = ("Rapport d'activités du Projet '"
                       +:+ Projet.nom (projet s) +:+ "':" +:+ NL) +:+ rest)
      /\ (forall m, m ∈ Equipe.membres (Projet.equipe (projet s)) ->
            contains (ligne_membre m) rapport
            /\ contains (Membre.nom m) rapport)
      /\ (forall r t, r ∈ Projet.taches (projet s) -> objs s !! r = Some t ->
            contains (ligne_tache str_datetime t) rapport
            /\ contains (Tache.nom t) rapport)
      /\ (forall j, j ∈ Projet.jalons (projet s) ->
            contains (ligne_jalon str_datetime j) rapport)
      /\ (forall k, k ∈ Projet.risques (projet s) ->
            contains (ligne_risque str_float k) rapport)
      /\ (forall r t, r ∈ Projet.chemin_critique (projet s) ->
            objs s !! r = Some t ->
            contains (ligne_chemin str_datetime t) rapport).
Proof.
  intros str_float str_datetime s Hobjs.
  destruct (ajouter_lignes_taches_eq (ligne_tache str_datetime) s
              (Projet.taches (projet s))) as (ts & Hts & Hrun1).
  { intros r Hr. apply Hobjs, elem_of_app. by left. }
  destruct (ajouter_lignes_taches_eq (ligne_chemin str_datetime) s
              (Projet.chemin_critique (projet s))) as (cs & Hcs & Hrun2).
  { intros r Hr. apply Hobjs, elem_of_app. by right. }
  unfold generer_rapport, bind, get. cbn zeta. rewrite Hrun1, Hrun2.
  rewrite !ajouter_lignes_eq.
  eexists. split; [reflexivity|]. split_and!.
  - eexists. rewrite !string_app_assoc. reflexivity.
  - intros m Hm.
    split; [find_lines|].
    eapply contains_trans; [|find_lines].
    exists "- ", (" (" +:+ Membre.role m +:+ ")" +:+ NL). reflexivity.
  - intros r t Hr Ht.
    assert (t ∈ ts) as Hin by by eapply Forall2_objs_elem.
    split; [find_lines|].
    eapply contains_trans with (b := ligne_tache str_datetime t); [|find_lines].
    eexists "- ", _. reflexivity.
  - intros j Hj. find_lines.
  - intros k Hk. find_lines.
  - intros r t Hr Ht.
    assert (t ∈ cs) as Hin by by eapply Forall2_objs_elem.
    find_lines.
Qed.

Lemma generer_rapport_lists_everything_witness :
  exists rapport,
    generer_rapport (fun _ => "0.0") (fun _ => "2024-01-01 00:00:00")
      (state_of script_heap [0; 1])
    = (Return rapport, state_of script_heap [0; 1])
    /\ contains (Tache.nom tache2) rapport.
Proof.
  destruct (generer_rapport_lists_everything
              (fun _ => "0.0") (fun _ => "2024-01-01 00:00:00")
              (state_of script_heap [0; 1]))
    as (rapport & Hrun & _ & _ & Htaches & _).
  - intros r Hr. cbn in Hr.
    repeat (apply elem_of_cons in Hr as [->|Hr]; [by eexists|]).
    by apply elem_of_nil in Hr.
  - exists rapport. split; [exact Hrun|].
    apply (Htaches 1 tache2); [|reflexivity]. right. by left.
Defined.

(** ** The memoized length is the greatest *)

Lemma max_from_ge_elem {A} (l : list (Z * A)) best x :
  x ∈ l -> (x.1 <= (max_from best l).1)%Z.
Proof.
  intros Hx.
  destruct (max_from_first l best) as (pre & post & Heq & Hpre & Hpost).
  assert (Hin : x ∈ pre ++ max_from best l :: post).
  { rewrite <- Heq. by right. }
  apply elem_of_app in Hin as [Hin|Hin].
  - rewrite Forall_forall in Hpre. specialize (Hpre _ Hin). cbn in Hpre. lia.
  - apply elem_of_cons in Hin as [->|Hin]; [lia|].
    rewrite Forall_forall in Hpost. by apply Hpost.
Qed.

Lemma entry_ge_counted_span h memo k r :
  memo_rec h memo -> memo !! k = Some r -> (counted_span h k <= r.1)%Z.
Proof.
  intros Hrec Hk. destruct (Hrec _ _ Hk) as (t & Ht & Hentry).
  unfold counted_span. rewrite Ht.
  destruct (Tache.dependances t) as [|d0 ds0]; [by subst|].
  destruct Hentry as (ds & _ & ->). cbn.
  pose proof (max_from_ge ds (0%Z, [])) as Hge. cbn in Hge. lia.
Qed.

Lemma entry_ge_dependency h memo k r d :
  memo_rec h memo -> memo !! k = Some r -> edge h k d ->
  exists rd, memo !! d = Some rd /\ (rd.1 + counted_span h k <= r.1)%Z.
Proof.
  intros Hrec Hk (t & Ht & Hd). destruct (Hrec _ _ Hk) as (t' & Ht' & Hentry).
  simplify_eq.
  assert (Hspan : counted_span h k = Tache.span t).
  { unfold counted_span. rewrite Ht.
    destruct (Tache.dependances t); [by apply elem_of_nil in Hd|done]. }
  rewrite Hspan.
  destruct (Tache.dependances t) as [|d0 ds0] eqn:Hlist;
    [by apply elem_of_nil in Hd|].
  rewrite <- Hlist in *. destruct Hentry as (ds & Hds & ->).
  apply list_elem_of_lookup in Hd as [i Hi].
  destruct (Forall2_lookup_l _ _ _ _ _ Hds Hi) as (rd & Hrd & Hmemo).
  exists rd. split; [exact Hmemo|]. cbn.
  pose proof (max_from_ge_elem ds (0%Z, []) rd
                (list_elem_of_lookup_2 _ _ _ Hrd)) as Hge.
  lia.
Qed.

Lemma is_chain_snoc_inv h path k :
  is_chain h (path ++ [k]) ->
  is_chain h path /\ forall d, last path = Some d -> edge h k d.
Proof.
  induction path as [|a path IH]; intros Hchain; [done|].
  destruct path as [|b path].
  - cbn in Hchain. destruct Hchain as [Hedge _]. split; [done|].
    intros d [= <-]. done.
  - destruct Hchain as [Hab Hchain]. destruct (IH Hchain) as [Hrest Hlast].
    split; [by split|]. intros d Hd. apply Hlast.
    by rewrite last_cons_cons in Hd.
Qed.

Lemma memo_rec_maximal h memo :
  memo_rec h memo ->
  forall chain k r,
    memo !! k = Some r -> is_chain h chain -> last chain = Some k ->
    (foldr Z.add 0 (counted_span h <$> chain) <= r.1)%Z.
Proof.
  intros Hrec chain. induction chain as [|k' chain IH] using rev_ind;
    intros k r Hk Hchain Hlast; [done|].
  rewrite last_snoc in Hlast. simplify_eq.
  rewrite sum_spans_snoc.
  destruct (is_chain_snoc_inv _ _ _ Hchain) as [Hrest Hedge].
  destruct (last chain) as [d|] eqn:Hd.
  - destruct (entry_ge_dependency _ _ _ _ d Hrec Hk (Hedge d eq_refl))
      as (rd & Hrd & Hge).
    specialize (IH d rd Hrd Hrest eq_refl). lia.
  - apply last_None in Hd. subst chain. cbn.
    pose proof (entry_ge_counted_span _ _ _ _ Hrec Hk). lia.
Qed.

(** X14: the length memoized for a task is the greatest there is: no chain
    of dependencies that ends with the task has a greater sum of spans
    (counting, as the memoized lengths do, 0 for a task without
    dependencies).  With X10, the memoized path is a chain that reaches this
    greatest sum. *)
Theorem memoized_length_is_maximal :
  forall depth h taches k r (chain : list ref),
    (all_paths depth h taches ∅).2 !! k = Some r ->
    is_chain h chain -> last chain = Some k ->
    (foldr Z.add 0 (counted_span h <$> chain) <= r.1)%Z.
Proof.
  intros depth h taches k r chain Hk Hchain Hlast.
  eapply memo_rec_maximal; [|exact Hk|exact Hchain|exact Hlast].
  apply all_paths_memo_rec.
Qed.

Lemma memoized_length_is_maximal_witness :
  (foldr Z.add 0 (counted_span diamond_heap <$> [0%nat; 1%nat; 3%nat]) <= 21)%Z.
Proof.
  apply (memoized_length_is_maximal 4 diamond_heap [0; 1; 2; 3] 3
           (21%Z, [2; 3]) [0; 1; 3]).
  - by vm_compute.
  - cbn. split_and!; [| |done].
    + exists (tache_de "B" 5 [0]). split; [reflexivity|]. by left.
    + exists (tache_de "D" 1 [1; 2]). split; [reflexivity|]. by left.
  - reflexivity.
Defined.
